(** * download.py: the fetch / retry / aggregate pipeline and its export stage

    A shallow embedding of [src/download.py].  Python values are modelled as
    the code uses them: [str] as [string], [int] as [Z], [None]-or-value as
    [option], the article dictionary as a record whose fields carry the
    dictionary's keys, and files as a finite map from path to content.

    - Exceptions are explicit ([result]); a [try]/[except Exception] block of
      the source is a [match] on [Raises].  Exceptions outside the class
      [Exception] (an interrupt, an exit) are not modelled.
    - [ThreadPoolExecutor] runs [process_batch] on every batch, and the main
      thread alone writes to the files and to [failed_ids], in the loop over
      [as_completed].  A run is therefore determined by what the remote
      service does on each call and by the order in which the futures
      complete; both are inputs of the model ([remote], [order]).  The
      progress bar is not modelled.
    - A file operation can fail where the file is opened ([open_error]); a
      [write] on an open handle succeeds.
    - [time.sleep] and the message of a missing file are CPython's: a delay
      is kept as a signed 64-bit count of nanoseconds, and a file name is
      shown by [repr]. *)

From Stdlib Require Import ZArith Lia Ascii String List DecimalString Permutation.
From stdpp Require Import base option list gmap strings.
Import ListNotations.

Open Scope string_scope.
Open Scope list_scope.
Open Scope Z_scope.

(** ** Python values *)

(** The outcome of evaluating a Python expression: a value, or an exception
    of class [Exception]; [e] is [str(e)]. *)
Inductive result (A : Type) : Type :=
| Returns (a : A)
| Raises (e : string).
Arguments Returns {A} a.
Arguments Raises {A} e.

(** Truthiness of a [str] and of a [str]-or-[None]. *)
Definition truthy_str (s : string) : bool :=
  match s with EmptyString => false | String _ _ => true end.

Definition truthy (o : option string) : bool :=
  match o with Some s => truthy_str s | None => false end.

(** [x or y] on strings that may be [None]. *)
Definition or_str (o : option string) (d : string) : string :=
  match o with Some s => if truthy_str s then s else d | None => d end.

(** How an f-string shows a [str]-or-[None]. *)
Definition fmt (o : option string) : string :=
  match o with Some s => s | None => "None" end.

Definition str_of_nat (n : nat) : string :=
  NilEmpty.string_of_uint (Nat.to_uint n).

Definition nl : string := String "010"%char EmptyString.

(** ** The objects of [pubmed_mapper] read by the fetcher *)

Record ArticleId := { id_type : string; id_value : string }.

(** [author_repr] is [repr(author)], [affiliation_repr] is
    [repr(author.affiliation)]: what [str([author, author.affiliation])]
    prints. *)
Record Author := { author_repr : string; affiliation_repr : string }.

Record Journal := { journal_title : option string }.

(** [art_keywords = None] stands for an object without a [keywords]
    attribute; [art_pubdate] holds [str(article.pubdate)]. *)
Record Article := {
  art_ids : list ArticleId;
  art_abstract : option string;
  art_title : option string;
  art_keywords : option (list string);
  art_authors : list Author;
  art_journal : option Journal;
  art_pubdate : option string
}.

(** The dictionary built at lines 26-37. *)
Record ArticleData := {
  pub_id : string;
  doi : option string;
  pmc_id : option string;
  abstract : string;
  title : string;
  keyword : list string;
  first_author_affiliation : option string;
  communicate_author_affiliation : option string;
  journal : option string;
  pub_date : option string
}.

(** [next((i.id_value for i in ids if i.id_type == ty), None)] *)
Definition next_id (ty : string) (ids : list ArticleId) : option string :=
  match List.find (fun i => String.eqb (id_type i) ty) ids with
  | Some i => Some (id_value i)
  | None => None
  end.

(** [str([author, author.affiliation])] *)
Definition str_author (a : Author) : string :=
  "[" +:+ author_repr a +:+ ", " +:+ affiliation_repr a +:+ "]".

(** Lines 22-37: the normalisation of a parsed article. *)
Definition article_data (pmid : string) (article : Article) : ArticleData :=
  let authors := List.map str_author (art_authors article) in
  {| pub_id := pmid;
     doi := next_id "doi" (art_ids article);
     pmc_id := next_id "pmc" (art_ids article);
     abstract := or_str (art_abstract article) EmptyString;
     title := or_str (art_title article) EmptyString;
     keyword := match art_keywords article with Some k => k | None => [] end;
     first_author_affiliation := List.hd_error authors;
     communicate_author_affiliation := List.last (List.map Some authors) None;
     journal := match art_journal article with
                | Some j => journal_title j
                | None => None
                end;
     pub_date := art_pubdate article |}.

(** ** RecordFetcher: [fetch_article_data] *)

(** What a fetch does besides returning: the remote lookups, the back-off
    sleeps and the lines it prints, in program order. *)
Inductive event : Type :=
| EvParse (pmid : string) (attempt : Z)
| EvSleep (secs : Z)
| EvPrint (line : string).

(** The body of the [try] block (lines 21-37) on one attempt.  [parse_pmid
    pmid attempt] is what [Article.parse_pmid(pmid)] does on the call made
    by attempt number [attempt]; a failure of the normalisation inside the
    [try] is a [Raises] of the same kind. *)
Definition try_body (parse_pmid : string -> Z -> result Article)
    (pmid : string) (attempt : Z) : result ArticleData :=
  match parse_pmid pmid attempt with
  | Returns article => Returns (article_data pmid article)
  | Raises e => Raises e
  end.

(** The line printed when the last attempt fails (line 42). *)
Definition failure_line (pmid e : string) : string :=
  "Failed to process " +:+ pmid +:+ ": " +:+ e.

(** The largest delay [time.sleep] takes, in nanoseconds. *)
Definition PyTime_MAX : Z := 2 ^ 63 - 1.

(** [time.sleep(secs)] on a non-negative [int].  The delay is converted to
    nanoseconds before anything else is done; when the product does not fit,
    the call raises [OverflowError] at once, without sleeping. *)
Definition time_sleep (secs : Z) : result unit :=
  if secs * 1000000000 <=? PyTime_MAX then Returns tt
  else Raises "timestamp too large to convert to C _PyTime_t".

(** The [for attempt in range(retries)] loop, from index [attempt] with
    [todo] iterations left.  The [time.sleep] of line 40 is called inside the
    [except] block: an exception it raises is not caught and leaves the
    function. *)
Fixpoint fetch_loop (parse_pmid : string -> Z -> result Article)
    (pmid : string) (retries : Z) (todo : nat) (attempt : Z)
    : list event * result (option ArticleData) :=
  match todo with
  | O => ([], Returns None)
  | S todo' =>
      match try_body parse_pmid pmid attempt with
      | Returns d => ([EvParse pmid attempt], Returns (Some d))
      | Raises e =>
          if attempt <? retries - 1 then
            match time_sleep (3 ^ attempt) with
            | Returns _ =>
                let '(evs, r) :=
                  fetch_loop parse_pmid pmid retries todo' (attempt + 1) in
                (EvParse pmid attempt :: EvSleep (3 ^ attempt) :: evs, r)
            | Raises e' => ([EvParse pmid attempt], Raises e')
            end
          else
            ([EvParse pmid attempt;
              EvPrint (failure_line pmid e)],
             Returns None)
      end
  end.

Definition default_retries : Z := 3.

Definition fetch_article_data (parse_pmid : string -> Z -> result Article)
    (pmid : string) (retries : Z) : list event * result (option ArticleData) :=
  fetch_loop parse_pmid pmid retries (Z.to_nat retries) 0.

(** Projections of a fetch trace. *)
Definition attempts_of (evs : list event) : list Z :=
  omap (fun ev => match ev with EvParse _ a => Some a | _ => None end) evs.

Definition sleeps_of (evs : list event) : list Z :=
  omap (fun ev => match ev with EvSleep s => Some s | _ => None end) evs.

Definition prints_of (evs : list event) : list string :=
  omap (fun ev => match ev with EvPrint s => Some s | _ => None end) evs.

(** The events of [n] failed attempts that were each followed by a back-off
    sleep, starting at attempt [from]. *)
Definition retry_prefix (pmid : string) (from : Z) (n : nat) : list event :=
  flat_map (fun k => [EvParse pmid (from + Z.of_nat k);
                      EvSleep (3 ^ (from + Z.of_nat k))]) (seq 0 n).

(** ** Work units: [process_batch] *)

(** The usability test of line 51, on a dictionary that was returned. *)
Definition usable (d : ArticleData) : bool :=
  truthy_str (abstract d) && truthy (doi d).

(** The loop of lines 49-52.  [parse pos] serves the identifier at position
    [pos] of the run's input, so that two occurrences of one identifier may
    see different remote behaviour. *)
Fixpoint process_batch_loop (parse : nat -> string -> Z -> result Article)
    (pos : nat) (batch : list string) (results : list ArticleData)
    : list event * result (list ArticleData) :=
  match batch with
  | [] => ([], Returns results)
  | pmid :: rest =>
      match fetch_article_data (parse pos) pmid default_retries with
      | (evs, Raises e) => (evs, Raises e)
      | (evs, Returns article_data) =>
          let results' :=
            match article_data with
            | Some d => if usable d then results ++ [d] else results
            | None => results
            end in
          let '(evs', r) := process_batch_loop parse (S pos) rest results' in
          (evs ++ evs', r)
      end
  end.

Definition process_batch (parse : nat -> string -> Z -> result Article)
    (pos : nat) (batch : list string)
    : list event * result (list ArticleData * list string) :=
  match process_batch_loop parse pos batch [] with
  | (evs, Returns results) => (evs, Returns (results, batch))
  | (evs, Raises e) => (evs, Raises e)
  end.

(** ** Rendering and classification *)

Definition join (sep : string) (l : list string) : string := String.concat sep l.

Definition format_article_markdown (data : ArticleData) : string :=
  String.concat EmptyString [
    "#### " +:+ title data +:+ nl;
    "- **Article ID**: " +:+ pub_id data +:+ nl;
    "- **DOI**: " +:+ fmt (doi data) +:+ nl;
    "- **Keywords**: " +:+ join ", " (keyword data) +:+ nl;
    "- **First Author Affiliation**: " +:+ fmt (first_author_affiliation data) +:+ nl;
    "- **Corresponding Author Affiliation**: "
      +:+ fmt (communicate_author_affiliation data) +:+ nl;
    "- **Journal**: " +:+ fmt (journal data) +:+ nl;
    "- **Publication Date**: " +:+ fmt (pub_date data) +:+ nl;
    "**Abstract**: " +:+ abstract data +:+ nl +:+ nl ].

(** [needle in hay] on strings. *)
Fixpoint str_in (needle hay : string) : bool :=
  if String.prefix needle hay then true
  else match hay with
       | EmptyString => false
       | String _ rest => str_in needle rest
       end.

Definition has_github_link (abstract : string) : bool :=
  str_in "ithub" abstract || str_in "avaliable" abstract.

(** The five accumulators of lines 102-106. *)
Record Views := {
  pmcids : list string;
  no_pmcids : list ArticleData;
  all_md : list string;
  link_articles : list ArticleData;
  no_link_articles : list ArticleData
}.

Definition empty_views : Views :=
  {| pmcids := []; no_pmcids := []; all_md := [];
     link_articles := []; no_link_articles := [] |}.

(** One iteration of the loop of lines 108-124.  In the first branch
    [article['pmc_id']] is truthy, hence a string. *)
Definition classify_step (select_link : bool) (v : Views) (article : ArticleData)
    : Views :=
  let has_pmc := truthy (pmc_id article) in
  let linked := has_github_link (abstract article) in
  {| pmcids := if has_pmc
               then pmcids v ++ [default EmptyString (pmc_id article)]
               else pmcids v;
     no_pmcids := if has_pmc then no_pmcids v else no_pmcids v ++ [article];
     all_md := all_md v ++ [format_article_markdown article];
     link_articles :=
       if select_link && linked then link_articles v ++ [article]
       else link_articles v;
     no_link_articles :=
       if select_link && negb linked then no_link_articles v ++ [article]
       else no_link_articles v |}.

Definition classify (select_link : bool) (articles : list ArticleData) : Views :=
  fold_left (classify_step select_link) articles empty_views.

(** ** Files, standard output and exceptions of the main thread *)

(** A file is the sequence of the pieces written to it: a piece of text, or
    one line [json.dumps(row) + '\n'].  Reading a [JsonLine] back with
    [json.loads] gives the row. *)
Inductive chunk : Type :=
| Raw (text : string)
| JsonLine (row : ArticleData).

Inductive mode : Type := ModeR | ModeW | ModeA.

(** Everything the program does not control: the remote service seen through
    [Article.parse_pmid] (per input position, identifier and attempt), the
    [OSError] an [open] may raise (per number of earlier [open] calls, mode
    and path; [Some e] carries [str(e)]), and the two library functions
    [markdown.markdown] and [json.loads] on text the pipeline did not
    write. *)
Record Env := {
  remote : nat -> string -> Z -> result Article;
  open_error : nat -> mode -> string -> option string;
  markdown_markdown : string -> result string;
  json_loads : string -> result ArticleData
}.

(** [stdout] holds the lines printed by the main thread. *)
Record World := {
  files : gmap string (list chunk);
  stdout : list string;
  opens : nat
}.

Definition IO (A : Type) : Type := World -> result A * World.

Definition ret {A} (a : A) : IO A := fun w => (Returns a, w).

Definition raise {A} (e : string) : IO A := fun w => (Raises e, w).

Definition bind {A B} (m : IO A) (k : A -> IO B) : IO B :=
  fun w =>
    match m w with
    | (Returns a, w') => k a w'
    | (Raises e, w') => (Raises e, w')
    end.

(** [try: m / except Exception as e: handler e] *)
Definition try_except {A} (m : IO A) (handler : string -> IO A) : IO A :=
  fun w =>
    match m w with
    | (Returns a, w') => (Returns a, w')
    | (Raises e, w') => handler e w'
    end.

Definition lift {A} (r : result A) : IO A := fun w => (r, w).

Notation "'let*' x ':=' c 'in' k" := (bind c (fun x => k))
  (at level 10, x pattern, c at level 200, k at level 200).

Definition print (line : string) : IO unit :=
  fun w => (Returns tt,
            {| files := files w; stdout := stdout w ++ [line]; opens := opens w |}).

(** [repr(s)] of a [str].  The string is shown between single quotes, or
    between double quotes when it holds a single quote and no double quote.
    The quote in use and the backslash are escaped with a backslash; tab,
    line feed and carriage return are written as a backslash and [t], [n],
    [r]; any other control character as a backslash, [x] and two hexadecimal
    digits.  Bytes beyond ASCII are copied: they are taken to encode
    printable characters. *)
Definition hex_digit (n : nat) : ascii :=
  List.nth n (list_ascii_of_string "0123456789abcdef") "0"%char.

Definition repr_quote (s : string) : ascii :=
  if str_in "'" s && negb (str_in (String "034"%char EmptyString) s)
  then "034"%char else "'"%char.

Definition repr_char (quote c : ascii) : string :=
  let n := nat_of_ascii c in
  if Ascii.eqb c quote || Ascii.eqb c "092"
  then String "092"%char (String c EmptyString)
  else if Ascii.eqb c "009" then String "092"%char "t"
  else if Ascii.eqb c "010" then String "092"%char "n"
  else if Ascii.eqb c "013" then String "092"%char "r"
  else if (n <? 32)%nat || (n =? 127)%nat
  then String "092"%char
         (String "x"%char
            (String (hex_digit (n / 16))
               (String (hex_digit (n mod 16)) EmptyString)))
  else String c EmptyString.

Fixpoint repr_body (quote : ascii) (s : string) : string :=
  match s with
  | EmptyString => EmptyString
  | String c rest => repr_char quote c +:+ repr_body quote rest
  end.

Definition py_repr (s : string) : string :=
  let quote := repr_quote s in
  String quote (repr_body quote s +:+ String quote EmptyString).

(** [str(e)] of the [FileNotFoundError] that [open(path)] raises. *)
Definition no_such_file (path : string) : string :=
  "[Errno 2] No such file or directory: " +:+ py_repr path.

(** [open(path, m)]: mode [w] truncates or creates, mode [a] creates when
    the file is missing, mode [r] needs the file. *)
Definition py_open (env : Env) (m : mode) (path : string) : IO unit :=
  fun w =>
    let w1 fs := {| files := fs; stdout := stdout w; opens := S (opens w) |} in
    match open_error env (opens w) m path with
    | Some e => (Raises e, w1 (files w))
    | None =>
        match m with
        | ModeR =>
            match files w !! path with
            | Some _ => (Returns tt, w1 (files w))
            | None => (Raises (no_such_file path), w1 (files w))
            end
        | ModeW => (Returns tt, w1 (<[path := []]> (files w)))
        | ModeA =>
            match files w !! path with
            | Some _ => (Returns tt, w1 (files w))
            | None => (Returns tt, w1 (<[path := []]> (files w)))
            end
        end
    end.

(** [f.write(...)] on a handle opened for writing or appending. *)
Definition write (path : string) (c : chunk) : IO unit :=
  fun w => (Returns tt,
            {| files := <[path := default [] (files w !! path) ++ [c]]> (files w);
               stdout := stdout w; opens := opens w |}).

Fixpoint write_all (path : string) (cs : list chunk) : IO unit :=
  match cs with
  | [] => ret tt
  | c :: rest => let* _ := write path c in write_all path rest
  end.

Definition read (path : string) : IO (list chunk) :=
  fun w => (Returns (default [] (files w !! path)), w).

(** White space in the sense of [str.strip], on ASCII. *)
Definition is_space (c : ascii) : bool :=
  let n := nat_of_ascii c in
  ((9 <=? n)%nat && (n <=? 13)%nat) || ((28 <=? n)%nat && (n <=? 32)%nat).

Fixpoint blank (s : string) : bool :=
  match s with
  | EmptyString => true
  | String c rest => is_space c && blank rest
  end.

(** [[json.loads(line) for line in f if line.strip()]].  A raw piece is read
    as one line; the files this program reads back hold blank raw pieces
    only. *)
Fixpoint loads_lines (loads : string -> result ArticleData) (cs : list chunk)
    : result (list ArticleData) :=
  match cs with
  | [] => Returns []
  | c :: rest =>
      let continue (row : option ArticleData) :=
        match loads_lines loads rest with
        | Returns rows => Returns (option_list row ++ rows)
        | Raises e => Raises e
        end in
      match c with
      | JsonLine row => continue (Some row)
      | Raw s =>
          if blank s then continue None
          else match loads s with
               | Returns row => continue (Some row)
               | Raises e => Raises e
               end
      end
  end.

(** The rows a file holds. *)
Definition rows_of (cs : list chunk) : list ArticleData :=
  omap (fun c => match c with JsonLine row => Some row | Raw _ => None end) cs.

Definition dq : string := String "034"%char EmptyString.

Definition md_to_html (env : Env) (md_content : string) : IO string :=
  let* html_content := lift (markdown_markdown env md_content) in
  ret ("<!DOCTYPE html>" +:+ nl
       +:+ "<html><head><meta charset=" +:+ dq +:+ "UTF-8" +:+ dq +:+ ">" +:+ nl
       +:+ "<style>" +:+ nl
       +:+ "body { font-family: " +:+ dq +:+ "Microsoft YaHei" +:+ dq +:+ ", "
       +:+ dq +:+ "SimSun" +:+ dq
       +:+ ", sans-serif; margin: 2cm; line-height: 1.6; }" +:+ nl
       +:+ "h1, h2, h3 { color: #333; }" +:+ nl
       +:+ "code { background-color: #f5f5f5; padding: 2px 4px; }" +:+ nl
       +:+ "pre { background-color: #f5f5f5; padding: 10px; }" +:+ nl
       +:+ "</style>" +:+ nl
       +:+ "</head><body>" +:+ html_content +:+ "</body></html>").

Definition save_json_lines (env : Env) (filepath : string)
    (data_list : list ArticleData) : IO unit :=
  let* _ := py_open env ModeW filepath in
  write_all filepath (List.map JsonLine data_list).

(** [with open(path, 'w') as f: f.write(text)] *)
Definition write_text (env : Env) (path text : string) : IO unit :=
  let* _ := py_open env ModeW path in
  write path (Raw text).

(** [with open(path, 'w') as f: f.write(md_to_html(md))]: the file is opened
    before the argument is evaluated. *)
Definition write_html (env : Env) (path md : string) : IO unit :=
  let* _ := py_open env ModeW path in
  let* html := md_to_html env md in
  write path (Raw html).

Definition render_all (l : list ArticleData) : string :=
  String.concat EmptyString (List.map format_article_markdown l).

(** ** Classifier/Exporter: [generate_outputs] *)

Definition generate_outputs (env : Env) (prefix : string) (select_link : bool)
    : IO unit :=
  let json_file := prefix +:+ "id_information.json" in
  let* _ := py_open env ModeR json_file in
  let* content := read json_file in
  let* articles := lift (loads_lines (json_loads env) content) in
  let v := classify select_link articles in
  let* _ := write_text env "pmcids.txt" (join nl (pmcids v)) in
  let* _ := save_json_lines env "no_pmcids.json" (no_pmcids v) in
  let md_content := String.concat EmptyString (all_md v) in
  let* _ := write_text env (prefix +:+ "id_information.md") md_content in
  let* _ := write_html env (prefix +:+ "id_information.html") md_content in
  let* _ :=
    if select_link then
      let* _ := save_json_lines env (prefix +:+ "link_id_information.json")
                  (link_articles v) in
      let link_md := render_all (link_articles v) in
      let* _ := write_text env (prefix +:+ "link_id_information.md") link_md in
      let* _ := write_html env (prefix +:+ "link_id_information.html") link_md in
      let* _ := save_json_lines env (prefix +:+ "no_link_id_information.json")
                  (no_link_articles v) in
      let no_link_md := render_all (no_link_articles v) in
      let* _ := write_text env (prefix +:+ "no_link_id_information.md") no_link_md in
      write_html env (prefix +:+ "no_link_id_information.html") no_link_md
    else ret tt in
  print ("Generated output files with " +:+ str_of_nat (length articles)
         +:+ " articles").

(** ** BatchScheduler, ResultSink and FailureTracker: [process_all_ids] *)

Definition BATCH_SIZE : nat := 1.

(** [range(start, stop, step)] for a positive [step]. *)
Definition range_step (start stop step : nat) : list nat :=
  List.map (fun k => (start + k * step)%nat)
           (seq 0 (Nat.div (stop - start + (step - 1)) step)).

(** [l[i:j]] for indices within [0 .. ] (slices clamp at the end). *)
Definition slice {A} (l : list A) (i j : nat) : list A :=
  take (j - i) (drop i l).

(** Line 160, each batch kept with the index [i] it starts at. *)
Definition make_batches (pm_ids : list string) : list (nat * list string) :=
  List.map (fun i => (i, slice pm_ids i (i + BATCH_SIZE)))
           (range_step 0 (length pm_ids) BATCH_SIZE).

(** What [future.result()] gives for each submitted batch (line 169). *)
Definition submit_all (env : Env) (batches : list (nat * list string))
    : list (result (list ArticleData * list string)) :=
  List.map (fun b => snd (process_batch (remote env) (fst b) (snd b))) batches.

(** [as_completed(futures)]: the futures in the order [order] in which they
    complete, a permutation of their indices. *)
Definition as_completed {A} (order : list nat) (futures : list A) : list A :=
  omap (fun k => futures !! k) order.

(** The body of the loop of lines 172-181, on the local [failed_ids]. *)
Definition consume (env : Env) (json_file : string) (failed_ids : list string)
    (future : result (list ArticleData * list string)) : IO (list string) :=
  let* r := lift future in
  let '(results, current_batch) := r in
  match results with
  | _ :: _ =>
      let* _ := py_open env ModeA json_file in
      let* _ := write_all json_file (List.map JsonLine results) in
      ret failed_ids
  | [] => ret (failed_ids ++ current_batch)
  end.

Fixpoint consume_all (env : Env) (json_file : string) (failed_ids : list string)
    (completed : list (result (list ArticleData * list string)))
    : IO (list string) :=
  match completed with
  | [] => ret failed_ids
  | future :: rest =>
      let* failed_ids' := consume env json_file failed_ids future in
      consume_all env json_file failed_ids' rest
  end.

(** Lines 160-181: the fetch phase; its value is [failed_ids]. *)
Definition fetch_phase (env : Env) (order : list nat) (pm_ids : list string)
    (prefix : string) : IO (list string) :=
  let batches := make_batches pm_ids in
  let json_file := prefix +:+ "id_information.json" in
  let* _ := py_open env ModeW json_file in
  let* _ := write json_file (Raw EmptyString) in
  consume_all env json_file [] (as_completed order (submit_all env batches)).

(** Lines 183-194: export, then the failure log. *)
Definition export_and_save (env : Env) (prefix : string) (select_link : bool)
    (failed_ids : list string) : IO unit :=
  let* exported :=
    try_except
      (let* _ := generate_outputs env prefix select_link in ret true)
      (fun e =>
         let* _ := print ("Error generating output files: " +:+ e) in
         ret false) in
  if exported then
    match failed_ids with
    | _ :: _ =>
        let* _ := write_text env "failed_ids.txt" (join nl failed_ids) in
        print ("Saved " +:+ str_of_nat (length failed_ids)
               +:+ " failed IDs to failed_ids.txt")
    | [] => ret tt
    end
  else ret tt.

Definition process_all_ids (env : Env) (order : list nat) (pm_ids : list string)
    (prefix : string) (select_link : bool) : IO unit :=
  let* failed_ids := fetch_phase env order pm_ids prefix in
  export_and_save env prefix select_link failed_ids.

(** The Dataset: the rows of the line-delimited file of the run. *)
Definition dataset (prefix : string) (w : World) : list ArticleData :=
  rows_of (default [] (files w !! (prefix +:+ "id_information.json"))).

Definition empty_world : World :=
  {| files := ∅; stdout := []; opens := 0 |}.

(** ** Stubs of the remote service and sample data *)

Definition flaky_twice (a : Article) : string -> Z -> result Article :=
  fun _ attempt => if attempt <? 2 then Raises "timed out" else Returns a.

Definition always_down (e : string) : string -> Z -> result Article :=
  fun _ _ => Raises e.

Definition sample_article : Article :=
  {| art_ids := [ {| id_type := "pubmed"; id_value := "31452104" |};
                  {| id_type := "doi"; id_value := "10.1000/j.x" |};
                  {| id_type := "pmc"; id_value := "PMC6700000" |} ];
     art_abstract := Some "Source code on Github.";
     art_title := Some "A title";
     art_keywords := Some ["genomics"; "sequencing"];
     art_authors := [ {| author_repr := "Ann"; affiliation_repr := "Lab 1" |};
                      {| author_repr := "Bob"; affiliation_repr := "Lab 2" |} ];
     art_journal := Some {| journal_title := Some "A journal" |};
     art_pubdate := Some "2019-08-27" |}.

(** ** The outcome of a unit, seen from the main thread *)

(** What [fetch_article_data] returns for the identifier at position [pos]. *)
Definition fetched (env : Env) (pos : nat) (pmid : string) : option ArticleData :=
  match snd (fetch_article_data (remote env pos) pmid default_retries) with
  | Returns v => v
  | Raises _ => None
  end.

(** The [results] of the unit [[pmid]]. *)
Definition kept (env : Env) (pos : nat) (pmid : string) : list ArticleData :=
  match fetched env pos pmid with
  | Some d => if usable d then [d] else []
  | None => []
  end.

Definition unit_outcomes (env : Env) (pm_ids : list string)
    : list (list ArticleData * list string) :=
  imap (fun i pmid => (kept env i pmid, [pmid])) pm_ids.

Definition stored_of (units : list (list ArticleData * list string))
    : list ArticleData :=
  flat_map fst units.

Definition failed_of (units : list (list ArticleData * list string))
    : list string :=
  flat_map (fun u => match fst u with [] => snd u | _ :: _ => [] end) units.

(** ** Frame properties of main-thread actions *)

(** [m] leaves the file at [p] as it is, whether it returns or raises. *)
Definition keeps {A} (p : string) (m : IO A) : Prop :=
  forall w, files (snd (m w)) !! p = files w !! p.

(** [m] prints nothing. *)
Definition quiet {A} (m : IO A) : Prop :=
  forall w, stdout (snd (m w)) = stdout w.

(** [m] prints nothing unless it returns. *)
Definition quiet_on_raise {A} (m : IO A) : Prop :=
  forall w e, fst (m w) = Raises e -> stdout (snd (m w)) = stdout w.

(** A record that passes the fetch but has no abstract. *)
Definition unusable_article : Article :=
  {| art_ids := [ {| id_type := "doi"; id_value := "10.1000/j.y" |} ];
     art_abstract := None;
     art_title := Some "Another title";
     art_keywords := None;
     art_authors := [];
     art_journal := None;
     art_pubdate := None |}.

(** The end-to-end scenario: the first identifier is fetched and usable, the
    second is fetched without abstract, the third never answers. *)
Definition scenario_remote (pos : nat) (pmid : string) (attempt : Z)
    : result Article :=
  if String.eqb pmid "A1" then Returns sample_article
  else if String.eqb pmid "A2" then Returns unusable_article
  else Raises "timed out".

Definition plain_env (r : nat -> string -> Z -> result Article) : Env :=
  {| remote := r;
     open_error := fun _ _ _ => None;
     markdown_markdown := fun md => Returns md;
     json_loads := fun _ => Raises "Expecting value" |}.

Definition scenario_env : Env := plain_env scenario_remote.

Definition scenario_ids : list string := ["A1"; "A2"; "A3"].

(** An environment in which [pmcids.txt] cannot be opened for writing. *)
Definition read_only_pmcids (r : nat -> string -> Z -> result Article) : Env :=
  {| remote := r;
     open_error := fun _ m path =>
       match m with
       | ModeW => if String.eqb path "pmcids.txt"
                  then Some "[Errno 13] Permission denied: 'pmcids.txt'"
                  else None
       | _ => None
       end;
     markdown_markdown := fun md => Returns md;
     json_loads := fun _ => Raises "Expecting value" |}.

(** ** The two tests of the export loop, on a record *)

(** Line 110: [article['pmc_id']] is truthy. *)
Definition has_pmc (article : ArticleData) : bool := truthy (pmc_id article).

(** The identifier line 111 appends, if any. *)
Definition listed_pmc (article : ArticleData) : option string :=
  if has_pmc article then pmc_id article else None.

(** Line 121: the classification predicate on the record's abstract. *)
Definition matched (article : ArticleData) : bool :=
  has_github_link (abstract article).

(** ** Further definitions: totals, batches of any size, the input file *)

(** The seconds a fetch spends in [time.sleep]. *)
Definition total_sleep (evs : list event) : Z :=
  foldr Z.add 0 (sleeps_of evs).

(** The [results] of a batch that starts at position [pos] of the input. *)
Definition batch_results (env : Env) (pos : nat) (batch : list string)
    : list ArticleData :=
  concat (imap (fun j pmid => kept env (pos + j) pmid) batch).

(** An environment in which the [open] call number [t] of the run raises. *)
Definition open_fails_at (t : nat) (r : nat -> string -> Z -> result Article) : Env :=
  {| remote := r;
     open_error := fun n _ _ =>
       if Nat.eqb n t then Some "[Errno 28] No space left on device" else None;
     markdown_markdown := fun md => Returns md;
     json_loads := fun _ => Raises "Expecting value" |}.

(** The page [md_to_html] builds around the HTML of the document. *)
Definition html_page (html_content : string) : string :=
  "<!DOCTYPE html>" +:+ nl
  +:+ "<html><head><meta charset=" +:+ dq +:+ "UTF-8" +:+ dq +:+ ">" +:+ nl
  +:+ "<style>" +:+ nl
  +:+ "body { font-family: " +:+ dq +:+ "Microsoft YaHei" +:+ dq +:+ ", "
  +:+ dq +:+ "SimSun" +:+ dq
  +:+ ", sans-serif; margin: 2cm; line-height: 1.6; }" +:+ nl
  +:+ "h1, h2, h3 { color: #333; }" +:+ nl
  +:+ "code { background-color: #f5f5f5; padding: 2px 4px; }" +:+ nl
  +:+ "pre { background-color: #f5f5f5; padding: 10px; }" +:+ nl
  +:+ "</style>" +:+ nl
  +:+ "</head><body>" +:+ html_content +:+ "</body></html>".

(** A file of JSON lines as this program writes them: rows, and raw pieces
    that are blank. *)
Definition json_lines_file (cs : list chunk) : Prop :=
  Forall (fun c => match c with Raw s => blank s = true | JsonLine _ => True end) cs.

(** The world after [open(path, 'w')] and the writing of [content]. *)
Definition written (w : World) (path : string) (content : list chunk) : World :=
  {| files := <[path := content]> (files w);
     stdout := stdout w;
     opens := S (opens w) |}.

(** The world the scenario's fetch phase leaves, and the content of its
    Dataset file. *)
Definition scenario_fetched : World :=
  snd (fetch_phase scenario_env [0; 1; 2]%nat scenario_ids EmptyString empty_world).

Definition scenario_content : list chunk :=
  [Raw EmptyString; JsonLine (article_data "A1" sample_article)].

(** The world the whole scenario run leaves. *)
Definition scenario_done : World :=
  snd (process_all_ids scenario_env [0; 1; 2]%nat scenario_ids EmptyString true
         empty_world).

(** Line 160 for a batch size [size]: [make_batches] is the case
    [size = BATCH_SIZE]. *)
Definition batches_of (size : nat) (pm_ids : list string) : list (nat * list string) :=
  List.map (fun i => (i, slice pm_ids i (i + size)))
           (range_step 0 (length pm_ids) size).

(** ** The input file: lines 199-200 *)

(** The lines of a file read in text mode, each with its terminator; with
    universal newlines a carriage return, alone or before a line feed, is
    read as a line feed. *)
Fixpoint file_lines (text : string) : list string :=
  match text with
  | EmptyString => []
  | String c rest =>
      if Ascii.eqb c "010" then nl :: file_lines rest
      else if Ascii.eqb c "013" then
        nl :: match rest with
              | String c' rest' =>
                  if Ascii.eqb c' "010" then file_lines rest' else file_lines rest
              | EmptyString => []
              end
      else match file_lines rest with
           | [] => [String c EmptyString]
           | line :: lines => String c line :: lines
           end
  end.

(** The text of the file is taken to be ASCII: [str.strip] also removes
    white space beyond ASCII, which [is_space] does not know. *)
Fixpoint ascii_text (s : string) : bool :=
  match s with
  | EmptyString => true
  | String c rest => (nat_of_ascii c <? 128)%nat && ascii_text rest
  end.

(** [str.lstrip], [str.rstrip] and [str.strip] on ASCII text. *)
Fixpoint lstrip (s : string) : string :=
  match s with
  | EmptyString => EmptyString
  | String c rest => if is_space c then lstrip rest else s
  end.

Fixpoint rstrip (s : string) : string :=
  match s with
  | EmptyString => EmptyString
  | String c rest =>
      match rstrip rest with
      | EmptyString => if is_space c then EmptyString else String c EmptyString
      | kept => String c kept
      end
  end.

Definition strip (s : string) : string := rstrip (lstrip s).

(** [[line.strip() for line in f if line.strip()]] on the text of the file. *)
Definition read_ids (text : string) : list string :=
  List.map strip (List.filter (fun line => truthy_str (strip line)) (file_lines text)).

(** A string of visible ASCII characters, at least one. *)
Definition visible (c : ascii) : bool :=
  (33 <=? nat_of_ascii c)%nat && (nat_of_ascii c <=? 126)%nat.

Fixpoint all_visible (s : string) : bool :=
  match s with
  | EmptyString => true
  | String c rest => visible c && all_visible rest
  end.

Definition plain_id (s : string) : bool := truthy_str s && all_visible s.

(** * Properties *)

(** ** The model on concrete inputs *)

Example has_github_link_repository :
  has_github_link "Source code on Github." = true.
Proof. reflexivity. Qed.

Example has_github_link_misspelling :
  has_github_link "Data are avaliable on request." = true.
Proof. reflexivity. Qed.

Example has_github_link_none :
  has_github_link "Code is available at GitLab." = false.
Proof. reflexivity. Qed.

Example article_data_sample :
  let d := article_data "A1" sample_article in
  (pub_id d, doi d, pmc_id d, first_author_affiliation d,
   communicate_author_affiliation d)
  = ("A1", Some "10.1000/j.x", Some "PMC6700000", Some "[Ann, Lab 1]",
     Some "[Bob, Lab 2]").
Proof. reflexivity. Qed.

Example article_data_unusable :
  let d := article_data "A2" unusable_article in
  (abstract d, doi d, pmc_id d, keyword d, first_author_affiliation d, usable d)
  = (EmptyString, Some "10.1000/j.y", None, [], None, false).
Proof. reflexivity. Qed.

Example make_batches_three :
  make_batches scenario_ids
  = [(0%nat, ["A1"]); (1%nat, ["A2"]); (2%nat, ["A3"])].
Proof. reflexivity. Qed.

Example fetch_trace_of_exhausted_budget :
  fetch_article_data (always_down "timed out") "A3" default_retries
  = ([EvParse "A3" 0; EvSleep 1; EvParse "A3" 1; EvSleep 3; EvParse "A3" 2;
      EvPrint "Failed to process A3: timed out"],
     Returns None).
Proof. reflexivity. Qed.

(** The scenario run to its end: one rendered block in the document of all
    records, one identifier in [pmcids.txt], two lines in the failure log. *)
Example scenario_run_outputs :
  let run := process_all_ids scenario_env [0; 1; 2]%nat scenario_ids EmptyString
               true empty_world in
  fst run = Returns tt
  /\ stdout (snd run) = ["Generated output files with 1 articles";
                          "Saved 2 failed IDs to failed_ids.txt"]
  /\ files (snd run) !! "id_information.md"
     = Some [Raw (format_article_markdown (article_data "A1" sample_article))]
  /\ files (snd run) !! "pmcids.txt" = Some [Raw "PMC6700000"]
  /\ files (snd run) !! "no_pmcids.json" = Some []
  /\ files (snd run) !! "failed_ids.txt" = Some [Raw ("A2" +:+ nl +:+ "A3")].
Proof. cbv zeta. repeat split; vm_compute; reflexivity. Qed.

(** ** RecordFetcher: the delays [time.sleep] takes *)

(** The back-off delays up to [3 ^ 20] seconds fit, the delay [3 ^ 21] and
    every later one do not. *)
Lemma time_sleep_returns k : 0 <= k <= 20 -> time_sleep (3 ^ k) = Returns tt.
Proof.
  intros Hk. unfold time_sleep, PyTime_MAX.
  assert (H : 3 ^ k <= 3 ^ 20) by (apply Z.pow_le_mono_r; lia).
  change (3 ^ 20) with 3486784401 in H.
  change (2 ^ 63 - 1) with 9223372036854775807.
  destruct (Z.leb_spec (3 ^ k * 1000000000) 9223372036854775807) as [_|Hgt];
    [reflexivity|lia].
Qed.

Lemma time_sleep_raises k :
  21 <= k -> exists e, time_sleep (3 ^ k) = Raises e.
Proof.
  intros Hk. unfold time_sleep, PyTime_MAX.
  assert (H : 3 ^ 21 <= 3 ^ k) by (apply Z.pow_le_mono_r; lia).
  change (3 ^ 21) with 10460353203 in H.
  change (2 ^ 63 - 1) with 9223372036854775807.
  destruct (Z.leb_spec (3 ^ k * 1000000000) 9223372036854775807) as [Hle|_];
    [lia|eauto].
Qed.

(** ** RecordFetcher: the shape of a fetch trace *)

Section FetchTrace.

Variable parse : string -> Z -> result Article.
Variable pmid : string.

Lemma retry_prefix_S from n :
  retry_prefix pmid from (S n)
  = EvParse pmid from :: EvSleep (3 ^ from) :: retry_prefix pmid (from + 1) n.
Proof.
  unfold retry_prefix. rewrite <- cons_seq, <- seq_shift. cbn [flat_map].
  rewrite Z.add_0_r. cbn [app]. do 2 f_equal.
  rewrite flat_map_concat_map, map_map, <- flat_map_concat_map.
  apply flat_map_ext. intros k.
  replace (from + 1 + Z.of_nat k) with (from + Z.of_nat (S k)) by lia.
  reflexivity.
Qed.

Lemma fetch_loop_shape retries todo : forall attempt,
  Z.of_nat (S todo) = retries - attempt ->
  exists n tail r,
    (n <= todo)%nat
    /\ fetch_loop parse pmid retries (S todo) attempt
       = (retry_prefix pmid attempt n ++ EvParse pmid (attempt + Z.of_nat n) :: tail,
          r)
    /\ (forall k, (k < n)%nat ->
          (exists e, parse pmid (attempt + Z.of_nat k) = Raises e)
          /\ time_sleep (3 ^ (attempt + Z.of_nat k)) = Returns tt)
    /\ ((exists a, parse pmid (attempt + Z.of_nat n) = Returns a
                   /\ tail = [] /\ r = Returns (Some (article_data pmid a)))
        \/ (exists e, parse pmid (attempt + Z.of_nat n) = Raises e
                      /\ n = todo /\ tail = [EvPrint (failure_line pmid e)]
                      /\ r = Returns None)
        \/ (exists e e', parse pmid (attempt + Z.of_nat n) = Raises e
                         /\ (n < todo)%nat
                         /\ time_sleep (3 ^ (attempt + Z.of_nat n)) = Raises e'
                         /\ tail = [] /\ r = Raises e')).
Proof.
  induction todo as [|todo IH]; intros attempt Hinv.
  - exists O, (match parse pmid attempt with
               | Returns _ => []
               | Raises e => [EvPrint (failure_line pmid e)] end),
           (match parse pmid attempt with
            | Returns a => Returns (Some (article_data pmid a))
            | Raises _ => Returns None end).
    cbn [fetch_loop]. unfold try_body. rewrite Z.add_0_r.
    replace (attempt <? retries - 1) with false by (symmetry; apply Z.ltb_ge; lia).
    split; [lia|]. split; [destruct (parse pmid attempt); reflexivity|].
    split; [intros k Hk; lia|].
    destruct (parse pmid attempt) as [a|e]; [left|right; left]; eauto.
  - remember (S todo) as t eqn:Ht. cbn [fetch_loop]. unfold try_body.
    destruct (parse pmid attempt) as [a|e] eqn:Hp.
    + exists O, [], (Returns (Some (article_data pmid a))). rewrite Z.add_0_r.
      split; [lia|]. split; [reflexivity|]. split; [intros k Hk; lia|].
      left. eauto.
    + replace (attempt <? retries - 1) with true by (symmetry; apply Z.ltb_lt; lia).
      destruct (time_sleep (3 ^ attempt)) as [[]|e'] eqn:Hsleep.
      * subst t.
        destruct (IH (attempt + 1)) as (n & tail & r & Hn & Heq & Hfail & Hend);
          [lia|].
        rewrite Heq. exists (S n), tail, r.
        replace (attempt + Z.of_nat (S n)) with (attempt + 1 + Z.of_nat n) by lia.
        split; [lia|]. split; [rewrite retry_prefix_S; reflexivity|].
        split.
        -- intros [|k] Hk; [rewrite Z.add_0_r; eauto|].
           replace (attempt + Z.of_nat (S k)) with (attempt + 1 + Z.of_nat k) by lia.
           apply Hfail. lia.
        -- destruct Hend as [Hok|[(e1 & He1 & Hn' & Ht & Hr)
                                 |(e1 & e2 & He1 & Hn' & Hs & Ht & Hr)]].
           ++ left. exact Hok.
           ++ right. left. exists e1. repeat split; auto.
           ++ right. right. exists e1, e2. repeat split; auto. lia.
      * exists O, [], (Raises e'). rewrite Z.add_0_r.
        split; [lia|]. split; [reflexivity|]. split; [intros k Hk; lia|].
        right. right. exists e, e'. repeat split; auto. lia.
Qed.

Lemma retry_prefix_app from a b :
  retry_prefix pmid from (a + b)
  = retry_prefix pmid from a ++ retry_prefix pmid (from + Z.of_nat a) b.
Proof.
  revert from. induction a as [|a IH]; intros from.
  - cbn. rewrite Z.add_0_r. reflexivity.
  - cbn [Nat.add]. rewrite !retry_prefix_S, IH. cbn [app].
    replace (from + 1 + Z.of_nat a) with (from + Z.of_nat (S a)) by lia.
    reflexivity.
Qed.

Lemma attempts_of_retry_prefix n : forall from,
  attempts_of (retry_prefix pmid from n)
  = List.map (fun k => from + Z.of_nat k) (seq 0 n).
Proof.
  induction n as [|n IH]; intros from; [reflexivity|].
  rewrite retry_prefix_S.
  change (from :: attempts_of (retry_prefix pmid (from + 1) n) = List.map (fun k => from + Z.of_nat k) (seq 0 (S n))).
  rewrite IH, <- cons_seq, <- seq_shift. cbn [List.map].
  rewrite List.map_map, Z.add_0_r. f_equal. apply map_ext. intros k. lia.
Qed.

Lemma sleeps_of_retry_prefix n : forall from,
  sleeps_of (retry_prefix pmid from n)
  = List.map (fun k => 3 ^ (from + Z.of_nat k)) (seq 0 n).
Proof.
  induction n as [|n IH]; intros from; [reflexivity|].
  rewrite retry_prefix_S.
  change (3 ^ from :: sleeps_of (retry_prefix pmid (from + 1) n) = List.map (fun k => 3 ^ (from + Z.of_nat k)) (seq 0 (S n))).
  rewrite IH, <- cons_seq, <- seq_shift. cbn [List.map].
  rewrite List.map_map, Z.add_0_r. f_equal. apply map_ext. intros k. f_equal. lia.
Qed.

Lemma prints_of_retry_prefix n : forall from,
  prints_of (retry_prefix pmid from n) = [].
Proof.
  induction n as [|n IH]; intros from; [reflexivity|].
  rewrite retry_prefix_S. exact (IH (from + 1)).
Qed.

(** The trace of a fetch with a positive budget: failed attempts that were
    each followed by their sleep, then one last attempt, which parses an
    article, or exhausts the budget, or is followed by a delay that
    [time.sleep] refuses. *)
Lemma fetch_trace retries :
  1 <= retries ->
  exists n tail r,
    Z.of_nat n < retries
    /\ fetch_article_data parse pmid retries
       = (retry_prefix pmid 0 n ++ EvParse pmid (Z.of_nat n) :: tail, r)
    /\ (forall k, (k < n)%nat ->
          (exists e, parse pmid (Z.of_nat k) = Raises e)
          /\ time_sleep (3 ^ Z.of_nat k) = Returns tt)
    /\ ((exists a, parse pmid (Z.of_nat n) = Returns a
                   /\ tail = [] /\ r = Returns (Some (article_data pmid a)))
        \/ (exists e, parse pmid (Z.of_nat n) = Raises e
                      /\ Z.of_nat n = retries - 1
                      /\ tail = [EvPrint (failure_line pmid e)]
                      /\ r = Returns None)
        \/ (exists e e', parse pmid (Z.of_nat n) = Raises e
                         /\ Z.of_nat n < retries - 1
                         /\ time_sleep (3 ^ Z.of_nat n) = Raises e'
                         /\ tail = [] /\ r = Raises e')).
Proof.
  intros HR. unfold fetch_article_data.
  destruct (Z.to_nat retries) as [|todo] eqn:Htodo; [lia|].
  destruct (fetch_loop_shape retries todo 0) as (n & tail & r & Hn & Heq & Hfail & Hend);
    [lia|].
  exists n, tail, r. rewrite Heq. cbn [Z.add] in *.
  split; [lia|]. split; [reflexivity|]. split; [exact Hfail|].
  destruct Hend as [Hok|[(e & He & Hlast & Ht & Hr)|(e & e' & He & Hlt & Hs & Ht & Hr)]].
  - left. exact Hok.
  - right. left. exists e. repeat split; auto. lia.
  - right. right. exists e, e'. repeat split; auto. lia.
Qed.

(** The tail of a trace holds neither an attempt nor a sleep. *)
Lemma fetch_trace_tail retries :
  1 <= retries ->
  exists n tail,
    Z.of_nat n < retries
    /\ fst (fetch_article_data parse pmid retries)
       = retry_prefix pmid 0 n ++ EvParse pmid (Z.of_nat n) :: tail
    /\ attempts_of tail = [] /\ sleeps_of tail = [].
Proof.
  intros HR.
  destruct (fetch_trace retries HR) as (n & tail & r & Hn & Heq & _ & Hend).
  exists n, tail. rewrite Heq. split; [exact Hn|]. split; [reflexivity|].
  destruct Hend as [(a & _ & -> & _)|[(e & _ & _ & -> & _)|(e & e' & _ & _ & _ & -> & _)]];
    split; reflexivity.
Qed.

(** With a budget of at most 22 every delay is one [time.sleep] takes, and
    the fetch returns. *)
Lemma fetch_shape retries :
  1 <= retries <= 22 ->
  exists n tail r,
    Z.of_nat n < retries
    /\ fetch_article_data parse pmid retries
       = (retry_prefix pmid 0 n ++ EvParse pmid (Z.of_nat n) :: tail, Returns r)
    /\ (forall k, (k < n)%nat -> exists e, parse pmid (Z.of_nat k) = Raises e)
    /\ ((exists a, parse pmid (Z.of_nat n) = Returns a
                   /\ tail = [] /\ r = Some (article_data pmid a))
        \/ (exists e, parse pmid (Z.of_nat n) = Raises e
                      /\ Z.of_nat n = retries - 1
                      /\ tail = [EvPrint (failure_line pmid e)]
                      /\ r = None)).
Proof.
  intros HR.
  destruct (fetch_trace retries) as (n & tail & r & Hn & Heq & Hfail & Hend); [lia|].
  destruct Hend as [(a & Ha & Ht & Hr)|[(e & He & Hlast & Ht & Hr)
                                        |(e & e' & _ & Hlt & Hs & _)]].
  - exists n, tail, (Some (article_data pmid a)). rewrite Heq, Hr.
    split; [exact Hn|]. split; [reflexivity|].
    split; [intros k Hk; apply (Hfail k Hk)|]. left. eauto.
  - exists n, tail, None. rewrite Heq, Hr.
    split; [exact Hn|]. split; [reflexivity|].
    split; [intros k Hk; apply (Hfail k Hk)|]. right. exists e. auto.
  - rewrite time_sleep_returns in Hs by lia. discriminate Hs.
Qed.

Lemma fetch_no_budget retries :
  retries <= 0 -> fetch_article_data parse pmid retries = ([], Returns None).
Proof.
  intros HR. unfold fetch_article_data.
  replace (Z.to_nat retries) with O by lia. reflexivity.
Qed.

(** When every attempt within the budget fails. *)
Lemma fetch_all_fail retries :
  1 <= retries <= 22 ->
  (forall k, 0 <= k < retries -> exists e, parse pmid k = Raises e) ->
  exists e, parse pmid (retries - 1) = Raises e
    /\ fetch_article_data parse pmid retries
       = (retry_prefix pmid 0 (Z.to_nat (retries - 1))
            ++ [EvParse pmid (retries - 1); EvPrint (failure_line pmid e)],
          Returns None).
Proof.
  intros HR Hall.
  destruct (fetch_shape retries HR) as (n & tail & r & Hn & Heq & _ & Hend).
  destruct Hend as [(a & Ha & _)|(e & He & Hlast & Ht & Hr)].
  - destruct (Hall (Z.of_nat n)) as [e He]; [lia|]. congruence.
  - exists e. rewrite <- Hlast, Nat2Z.id. split; [exact He|].
    rewrite Heq, Ht, Hr. reflexivity.
Qed.

End FetchTrace.

Lemma attempts_of_app l1 l2 : attempts_of (l1 ++ l2) = attempts_of l1 ++ attempts_of l2.
Proof. apply omap_app. Qed.

Lemma sleeps_of_app l1 l2 : sleeps_of (l1 ++ l2) = sleeps_of l1 ++ sleeps_of l2.
Proof. apply omap_app. Qed.

Lemma prints_of_app l1 l2 : prints_of (l1 ++ l2) = prints_of l1 ++ prints_of l2.
Proof. apply omap_app. Qed.

(** C3. With a budget of three attempts, a remote that fails attempts 0 and
    1 and answers attempt 2 gives a success after exactly the three attempts
    0, 1, 2.  With a budget [R] of at most 22, the default 3 among them, a
    remote that fails every attempt of the budget gives the failure value
    after exactly the [R] attempts 0, ..., [R - 1].  (From 23 on the budget
    cannot be exhausted: the delay after attempt 21 is one [time.sleep]
    refuses.) *)
Theorem fetch_retry_budget (flaky down : string -> Z -> result Article)
    (pmid e0 e1 : string) (a : Article) (R : Z) :
  flaky pmid 0 = Raises e0 ->
  flaky pmid 1 = Raises e1 ->
  flaky pmid 2 = Returns a ->
  R <= 22 ->
  (forall k, 0 <= k < R -> exists e, down pmid k = Raises e) ->
  (snd (fetch_article_data flaky pmid 3) = Returns (Some (article_data pmid a))
   /\ attempts_of (fst (fetch_article_data flaky pmid 3)) = [0; 1; 2])
  /\ (snd (fetch_article_data down pmid R) = Returns None
      /\ attempts_of (fst (fetch_article_data down pmid R))
         = List.map Z.of_nat (seq 0 (Z.to_nat R))).
Proof.
  intros H0 H1 H2 HR Hdown. split.
  - unfold fetch_article_data. change (Z.to_nat 3) with 3%nat.
    cbn [fetch_loop]. unfold try_body.
    change (0 + 1 + 1) with 2. change (0 + 1) with 1.
    rewrite H0, H1, H2. split; reflexivity.
  - destruct (Z_le_gt_dec R 0) as [Hle|Hgt].
    + rewrite fetch_no_budget by exact Hle.
      replace (Z.to_nat R) with O by lia. split; reflexivity.
    + destruct (fetch_all_fail down pmid R) as (e & _ & Heq); [lia|exact Hdown|].
      rewrite Heq. cbn [fst snd]. split; [reflexivity|].
      rewrite attempts_of_app, attempts_of_retry_prefix.
      replace (Z.to_nat R) with (S (Z.to_nat (R - 1))) by lia.
      rewrite seq_S, List.map_app. cbn [List.map Nat.add].
      change (attempts_of [EvParse pmid (R - 1); EvPrint (failure_line pmid e)])
        with [R - 1].
      rewrite Z2Nat.id by lia.
      rewrite (List.map_ext (fun k => 0 + Z.of_nat k) Z.of_nat) by (intros k; lia).
      reflexivity.
Qed.

(** The two stubs of the retry test, at [R = 3]. *)
Lemma fetch_retry_budget_witness :
  (snd (fetch_article_data (flaky_twice sample_article) "31452104" 3)
   = Returns (Some (article_data "31452104" sample_article))
   /\ attempts_of (fst (fetch_article_data (flaky_twice sample_article) "31452104" 3))
      = [0; 1; 2])
  /\ (snd (fetch_article_data (always_down "timed out") "31452104" 3) = Returns None
      /\ attempts_of (fst (fetch_article_data (always_down "timed out") "31452104" 3))
         = List.map Z.of_nat (seq 0 (Z.to_nat 3))).
Proof.
  apply (fetch_retry_budget (flaky_twice sample_article) (always_down "timed out")
           "31452104" "timed out" "timed out" sample_article 3).
  - reflexivity.
  - reflexivity.
  - reflexivity.
  - lia.
  - intros k _. exists "timed out". reflexivity.
Defined.

(** C4, as stated, fails: the value returned after an exhausted budget is
    the same [None] for every identifier and every error, so neither can be
    read off it. *)
Lemma failure_value_carries_nothing :
  ~ exists decode : result (option ArticleData) -> string * string,
      forall pmid e,
        decode (snd (fetch_article_data (always_down e) pmid 3)) = (pmid, e).
Proof.
  intros [decode H].
  pose proof (H "A1" "timed out") as H1.
  pose proof (H "A3" "HTTP 429") as H2.
  change (snd (fetch_article_data (always_down "timed out") "A1" 3))
    with (@Returns (option ArticleData) None) in H1.
  change (snd (fetch_article_data (always_down "HTTP 429") "A3" 3))
    with (@Returns (option ArticleData) None) in H2.
  rewrite H1 in H2. discriminate H2.
Qed.

(** C4, amended.  With a budget of at most 22 attempts, the default 3 among
    them, a fetch returns and never raises, whatever the remote does.  After
    a budget of [1 <= retries <= 22] failed attempts it returns [None], a
    value that carries no data, and has printed exactly one line, which
    names the identifier and the error of the last attempt. *)
Theorem fetch_never_raises (parse : string -> Z -> result Article)
    (pmid : string) (retries : Z) (e : string) :
  1 <= retries <= 22 ->
  (forall k, 0 <= k < retries -> exists e', parse pmid k = Raises e') ->
  parse pmid (retries - 1) = Raises e ->
  (forall parse' pmid' retries',
      retries' <= 22 ->
      exists v, snd (fetch_article_data parse' pmid' retries') = Returns v)
  /\ snd (fetch_article_data parse pmid retries) = Returns None
  /\ prints_of (fst (fetch_article_data parse pmid retries)) = [failure_line pmid e].
Proof.
  intros HR Hall Hlast. split.
  - intros parse' pmid' retries' HR'.
    destruct (Z_le_gt_dec retries' 0) as [Hle|Hgt].
    + rewrite fetch_no_budget by exact Hle. eauto.
    + destruct (fetch_shape parse' pmid' retries') as (n & tail & r & _ & Heq & _);
        [lia|].
      rewrite Heq. eauto.
  - destruct (fetch_all_fail parse pmid retries HR Hall) as (e' & He' & Heq).
    rewrite Heq. cbn [fst snd]. split; [reflexivity|].
    rewrite prints_of_app, prints_of_retry_prefix. cbn. congruence.
Qed.

(** A remote that rejects every request. *)
Lemma fetch_never_raises_witness :
  (forall parse' pmid' retries',
      retries' <= 22 ->
      exists v, snd (fetch_article_data parse' pmid' retries') = Returns v)
  /\ snd (fetch_article_data (always_down "HTTP 429") "A3" 3) = Returns None
  /\ prints_of (fst (fetch_article_data (always_down "HTTP 429") "A3" 3))
     = [failure_line "A3" "HTTP 429"].
Proof.
  apply (fetch_never_raises (always_down "HTTP 429") "A3" 3 "HTTP 429").
  - lia.
  - intros k _. exists "HTTP 429". reflexivity.
  - reflexivity.
Defined.

(** A failed attempt that is not the last of the budget is followed in the
    trace by its sleep and by the next attempt. *)
Lemma fetch_sleep_between parse pmid R i :
  0 <= i < R - 1 ->
  i <= 20 ->
  (forall k, 0 <= k <= i -> exists e, parse pmid k = Raises e) ->
  exists post,
    fst (fetch_article_data parse pmid R)
    = retry_prefix pmid 0 (Z.to_nat i)
        ++ EvParse pmid i :: EvSleep (3 ^ i) :: EvParse pmid (i + 1) :: post.
Proof.
  intros Hi Hi20 Hfail.
  destruct (fetch_trace parse pmid R) as (n & tail & r & Hn & Heq & _ & Hend); [lia|].
  assert (Hlt : i < Z.of_nat n).
  { destruct (Z_lt_ge_dec i (Z.of_nat n)) as [Hlt|Hge]; [exact Hlt|].
    destruct (Hfail (Z.of_nat n)) as [e He]; [lia|].
    destruct Hend as [(a & Ha & _)|[(e' & _ & Hlast & _)|(e' & e2 & _ & _ & Hs & _)]];
      [congruence|lia|].
    rewrite time_sleep_returns in Hs by lia. discriminate Hs. }
  rewrite Heq. cbn [fst].
  replace n with (Z.to_nat i + S (n - S (Z.to_nat i)))%nat by lia.
  rewrite retry_prefix_app, retry_prefix_S, <- app_assoc. cbn [app].
  rewrite !Z.add_0_l, Z2Nat.id by lia.
  destruct (n - S (Z.to_nat i))%nat as [|m] eqn:Hm.
  - exists tail. cbn [retry_prefix flat_map seq app]. repeat f_equal. lia.
  - rewrite retry_prefix_S. cbn [app]. eexists. reflexivity.
Qed.

(** C5. After a failed attempt [i] with attempts remaining ([i < R - 1]) the
    fetch sleeps [3 ^ i] and then makes attempt [i + 1]; before it, every
    earlier attempt was followed by its own sleep.  This is for the attempts
    [i <= 20], whose delay [time.sleep] takes: every failed attempt but the
    last of a budget of at most 22, the default 3 among them.  Whatever the
    remote does and whatever the budget, the trace of a fetch is a run of
    attempt-sleep pairs, one last attempt, and a tail without sleep or
    attempt: no sleep follows the final attempt.  With [R = 3] and attempts 0
    and 1 failing, the sleeps before the second and the third attempt are 1
    and 3. *)
Theorem backoff_schedule (parse any three : string -> Z -> result Article)
    (pmid e0 e1 : string) (R R' i : Z) :
  0 <= i < R - 1 ->
  i <= 20 ->
  (forall k, 0 <= k <= i -> exists e, parse pmid k = Raises e) ->
  1 <= R' ->
  three pmid 0 = Raises e0 ->
  three pmid 1 = Raises e1 ->
  (exists post,
      fst (fetch_article_data parse pmid R)
      = retry_prefix pmid 0 (Z.to_nat i)
          ++ EvParse pmid i :: EvSleep (3 ^ i) :: EvParse pmid (i + 1) :: post)
  /\ (exists n tail,
         fst (fetch_article_data any pmid R')
         = retry_prefix pmid 0 n ++ EvParse pmid (Z.of_nat n) :: tail
         /\ attempts_of tail = [] /\ sleeps_of tail = [])
  /\ (exists post,
         fst (fetch_article_data three pmid 3)
         = EvParse pmid 0 :: EvSleep 1 :: EvParse pmid 1 :: EvSleep 3
             :: EvParse pmid 2 :: post
         /\ attempts_of post = [] /\ sleeps_of post = []).
Proof.
  intros Hi Hi20 Hfail HR' H0 H1. split; [|split].
  - exact (fetch_sleep_between parse pmid R i Hi Hi20 Hfail).
  - destruct (fetch_trace_tail any pmid R' HR') as (n & tail & _ & Heq & Hat & Hst).
    exists n, tail. auto.
  - unfold fetch_article_data. change (Z.to_nat 3) with 3%nat.
    cbn [fetch_loop]. unfold try_body.
    change (0 + 1 + 1) with 2. change (0 + 1) with 1.
    rewrite H0, H1.
    destruct (three pmid 2) as [a|e]; eexists; (split; [reflexivity|split; reflexivity]).
Qed.

(** The schedule of a fetch whose three attempts all time out. *)
Lemma backoff_schedule_witness :
  (exists post,
      fst (fetch_article_data (always_down "timed out") "A3" 3)
      = retry_prefix "A3" 0 (Z.to_nat 1)
          ++ EvParse "A3" 1 :: EvSleep (3 ^ 1) :: EvParse "A3" (1 + 1) :: post)
  /\ (exists n tail,
         fst (fetch_article_data (flaky_twice sample_article) "A3" 3)
         = retry_prefix "A3" 0 n ++ EvParse "A3" (Z.of_nat n) :: tail
         /\ attempts_of tail = [] /\ sleeps_of tail = [])
  /\ (exists post,
         fst (fetch_article_data (always_down "timed out") "A3" 3)
         = EvParse "A3" 0 :: EvSleep 1 :: EvParse "A3" 1 :: EvSleep 3
             :: EvParse "A3" 2 :: post
         /\ attempts_of post = [] /\ sleeps_of post = []).
Proof.
  apply (backoff_schedule (always_down "timed out") (flaky_twice sample_article)
           (always_down "timed out") "A3" "timed out" "timed out" 3 3 1).
  - lia.
  - lia.
  - intros k _. exists "timed out". reflexivity.
  - lia.
  - reflexivity.
  - reflexivity.
Defined.

(** ** The scheduler with unit size 1 *)

Lemma range_step_unit n : range_step 0 n 1 = seq 0 n.
Proof.
  unfold range_step. rewrite Nat.sub_0_r, Nat.sub_diag, Nat.add_0_r, Nat.div_1_r.
  rewrite <- (List.map_id (seq 0 n)) at 2. apply List.map_ext. intros k. lia.
Qed.

Lemma slices_unit {A B} (g : nat -> list A -> B) (l : list A) :
  List.map (fun i => g i (slice l i (i + 1))) (seq 0 (length l))
  = imap (fun i x => g i [x]) l.
Proof.
  revert g. induction l as [|x l IH]; intros g; [reflexivity|].
  cbn [length]. rewrite <- cons_seq, <- seq_shift. cbn [List.map].
  rewrite List.map_map, imap_cons.
  change (g 0%nat (slice (x :: l) 0 (0 + 1))) with (g 0%nat [x]).
  f_equal. etransitivity; [|exact (IH (fun i => g (S i)))].
  apply List.map_ext. intros i. reflexivity.
Qed.

Lemma make_batches_unit pm_ids :
  make_batches pm_ids = imap (fun i pmid => (i, [pmid])) pm_ids.
Proof.
  unfold make_batches, BATCH_SIZE. rewrite range_step_unit.
  apply (slices_unit (fun i b => (i, b))).
Qed.

Lemma fetch_returns parse pmid retries :
  retries <= 22 ->
  exists v, snd (fetch_article_data parse pmid retries) = Returns v.
Proof.
  intros HR. destruct (Z_le_gt_dec retries 0) as [Hle|Hgt].
  - rewrite fetch_no_budget by exact Hle. eauto.
  - destruct (fetch_shape parse pmid retries) as (n & tail & r & _ & Heq & _); [lia|].
    rewrite Heq. eauto.
Qed.

Lemma process_batch_unit env pos pmid :
  snd (process_batch (remote env) pos [pmid]) = Returns (kept env pos pmid, [pmid]).
Proof.
  unfold process_batch, kept, fetched. cbn [process_batch_loop].
  destruct (fetch_returns (remote env pos) pmid default_retries) as [v Hv];
    [unfold default_retries; lia|].
  destruct (fetch_article_data (remote env pos) pmid default_retries) as [evs r].
  cbn [snd] in Hv |- *. subst r. cbn [fst snd app].
  destruct v as [d|]; [destruct (usable d)|]; reflexivity.
Qed.

Lemma submit_all_unit env pm_ids :
  submit_all env (make_batches pm_ids) = List.map Returns (unit_outcomes env pm_ids).
Proof.
  unfold submit_all, unit_outcomes. rewrite make_batches_unit.
  change (List.map ?f ?l) with (f <$> l).
  rewrite !fmap_imap. apply imap_ext. intros i x _. cbn.
  apply process_batch_unit.
Qed.

Lemma as_completed_map {A B} (f : A -> B) order (l : list A) :
  as_completed order (List.map f l) = List.map f (as_completed order l).
Proof.
  unfold as_completed. induction order as [|k order IH]; [reflexivity|].
  change (List.map f l) with (f <$> l) in *.
  cbn [omap list_omap]. rewrite list_lookup_fmap.
  destruct (l !! k) as [x|]; cbn [fmap option_fmap option_map List.map];
    rewrite IH; reflexivity.
Qed.

Lemma omap_lookup_seq {A} (l pre : list A) :
  omap (fun k => (pre ++ l) !! k) (seq (length pre) (length l)) = l.
Proof.
  revert pre. induction l as [|x l IH]; intros pre; [reflexivity|].
  cbn [length seq omap list_omap]. rewrite list_lookup_middle by reflexivity.
  f_equal. specialize (IH (pre ++ [x])).
  rewrite <- app_assoc, length_app, Nat.add_1_r in IH. exact IH.
Qed.

Lemma as_completed_all {A} (l : list A) : as_completed (seq 0 (length l)) l = l.
Proof. exact (omap_lookup_seq l []). Qed.

Lemma as_completed_perm {A} order (l : list A) :
  Permutation order (seq 0 (length l)) -> Permutation (as_completed order l) l.
Proof.
  intros Hperm. rewrite <- (as_completed_all l) at 2.
  unfold as_completed. rewrite Hperm. reflexivity.
Qed.

(** ** Effects of the file primitives *)

Lemma keeps_ret {A} p (a : A) : keeps p (ret a).
Proof. intros w. reflexivity. Qed.

Lemma keeps_lift {A} p (r : result A) : keeps p (lift r).
Proof. intros w. reflexivity. Qed.

Lemma keeps_print p line : keeps p (print line).
Proof. intros w. reflexivity. Qed.

Lemma keeps_read p path : keeps p (read path).
Proof. intros w. reflexivity. Qed.

Lemma keeps_bind {A B} p (m : IO A) (k : A -> IO B) :
  keeps p m -> (forall a, keeps p (k a)) -> keeps p (bind m k).
Proof.
  intros Hm Hk w. unfold bind. specialize (Hm w).
  destruct (m w) as [[a|e] w1]; cbn [snd] in *; [rewrite Hk|]; exact Hm.
Qed.

Lemma keeps_try_except {A} p (m : IO A) (h : string -> IO A) :
  keeps p m -> (forall e, keeps p (h e)) -> keeps p (try_except m h).
Proof.
  intros Hm Hh w. unfold try_except. specialize (Hm w).
  destruct (m w) as [[a|e] w1]; cbn [snd] in *; [|rewrite Hh]; exact Hm.
Qed.

Lemma keeps_py_open env m path p : p <> path -> keeps p (py_open env m path).
Proof.
  intros Hne w. unfold py_open.
  destruct (open_error env (opens w) m path); [reflexivity|].
  destruct m; [destruct (files w !! path); reflexivity| |destruct (files w !! path)];
    cbn [snd files]; try reflexivity; apply lookup_insert_ne; congruence.
Qed.

Lemma keeps_py_open_read env path p : keeps p (py_open env ModeR path).
Proof.
  intros w. unfold py_open.
  destruct (open_error env (opens w) ModeR path); [reflexivity|].
  destruct (files w !! path); reflexivity.
Qed.

Lemma keeps_write path c p : p <> path -> keeps p (write path c).
Proof. intros Hne w. cbn. apply lookup_insert_ne. congruence. Qed.

Lemma keeps_write_all path cs p : p <> path -> keeps p (write_all path cs).
Proof.
  intros Hne. induction cs as [|c cs IH]; [apply keeps_ret|].
  apply keeps_bind; [apply keeps_write; exact Hne|intros _; exact IH].
Qed.

Lemma keeps_md_to_html env md p : keeps p (md_to_html env md).
Proof. apply keeps_bind; [apply keeps_lift|intros a; apply keeps_ret]. Qed.

Lemma keeps_save_json_lines env path l p :
  p <> path -> keeps p (save_json_lines env path l).
Proof.
  intros Hne. apply keeps_bind; [apply keeps_py_open; exact Hne|].
  intros _. apply keeps_write_all. exact Hne.
Qed.

Lemma keeps_write_text env path text p : p <> path -> keeps p (write_text env path text).
Proof.
  intros Hne. apply keeps_bind; [apply keeps_py_open; exact Hne|].
  intros _. apply keeps_write. exact Hne.
Qed.

Lemma keeps_write_html env path md p : p <> path -> keeps p (write_html env path md).
Proof.
  intros Hne. apply keeps_bind; [apply keeps_py_open; exact Hne|].
  intros _. apply keeps_bind; [apply keeps_md_to_html|].
  intros html. apply keeps_write. exact Hne.
Qed.

(** The export stage writes to the paths listed here and to no other. *)
Lemma keeps_generate_outputs env prefix select_link p :
  p <> "pmcids.txt" -> p <> "no_pmcids.json" ->
  p <> prefix +:+ "id_information.md" ->
  p <> prefix +:+ "id_information.html" ->
  p <> prefix +:+ "link_id_information.json" ->
  p <> prefix +:+ "link_id_information.md" ->
  p <> prefix +:+ "link_id_information.html" ->
  p <> prefix +:+ "no_link_id_information.json" ->
  p <> prefix +:+ "no_link_id_information.md" ->
  p <> prefix +:+ "no_link_id_information.html" ->
  keeps p (generate_outputs env prefix select_link).
Proof.
  intros. unfold generate_outputs.
  apply keeps_bind; [apply keeps_py_open_read|intros _].
  apply keeps_bind; [apply keeps_read|intros content].
  apply keeps_bind; [apply keeps_lift|intros articles].
  apply keeps_bind; [apply keeps_write_text; assumption|intros _].
  apply keeps_bind; [apply keeps_save_json_lines; assumption|intros _].
  apply keeps_bind; [apply keeps_write_text; assumption|intros _].
  apply keeps_bind; [apply keeps_write_html; assumption|intros _].
  apply keeps_bind; [|intros _; apply keeps_print].
  destruct select_link; [|apply keeps_ret].
  apply keeps_bind; [apply keeps_save_json_lines; assumption|intros _].
  apply keeps_bind; [apply keeps_write_text; assumption|intros _].
  apply keeps_bind; [apply keeps_write_html; assumption|intros _].
  apply keeps_bind; [apply keeps_save_json_lines; assumption|intros _].
  apply keeps_bind; [apply keeps_write_text; assumption|intros _].
  apply keeps_write_html; assumption.
Qed.

(** ** The paths of a run are distinct *)

Lemma str_length_app (s t : string) :
  String.length (s +:+ t) = (String.length s + String.length t)%nat.
Proof.
  induction s as [|c s IH]; [reflexivity|].
  change (S (String.length (s +:+ t)) = S (String.length s + String.length t)).
  rewrite IH. reflexivity.
Qed.

Lemma str_app_inv_head (s t u : string) : s +:+ t = s +:+ u -> t = u.
Proof.
  induction s as [|c s IH]; intros Heq; [exact Heq|].
  apply IH. injection Heq as Heq. exact Heq.
Qed.

Ltac by_length :=
  let Heq := fresh "Heq" in
  intros Heq;
  try (apply str_app_inv_head in Heq; discriminate Heq);
  apply (f_equal String.length) in Heq;
  rewrite ?str_length_app in Heq;
  repeat match type of Heq with
         | context [String.length (String ?c ?s)] =>
             change (String.length (String c s)) with (S (String.length s)) in Heq
         end;
  change (String.length EmptyString) with O in Heq; lia.

(** Neither the Dataset file nor the failure log is among the files the
    export stage writes. *)
Lemma export_keeps_dataset env prefix select_link :
  keeps (prefix +:+ "id_information.json") (generate_outputs env prefix select_link).
Proof. apply keeps_generate_outputs; by_length. Qed.

Lemma export_keeps_failure_log env prefix select_link :
  keeps "failed_ids.txt" (generate_outputs env prefix select_link).
Proof.
  apply keeps_generate_outputs; try by_length; discriminate.
Qed.

Lemma failure_log_is_not_dataset prefix :
  "failed_ids.txt" <> prefix +:+ "id_information.json".
Proof. by_length. Qed.

(** ** ResultSink and FailureTracker: the loop over completed units *)

Lemma write_all_spec path cs : forall w,
  fst (write_all path cs w) = Returns tt
  /\ stdout (snd (write_all path cs w)) = stdout w
  /\ (forall c, files w !! path = Some c ->
        files (snd (write_all path cs w)) !! path = Some (c ++ cs)).
Proof.
  induction cs as [|x cs IH]; intros w.
  - cbn. repeat split. intros c Hc. rewrite app_nil_r. exact Hc.
  - cbn [write_all]. unfold bind. cbn [write].
    set (w1 := {| files := _; stdout := _; opens := _ |}).
    destruct (IH w1) as (Hr & Hout & Hfiles).
    repeat split; [exact Hr|exact Hout|].
    intros c Hc. rewrite (Hfiles (c ++ [x])).
    + rewrite <- app_assoc. reflexivity.
    + subst w1. cbn [files]. rewrite Hc. apply lookup_insert_eq.
Qed.

Lemma consume_spec env jf failed res b w c f w' :
  files w !! jf = Some c ->
  consume env jf failed (Returns (res, b)) w = (Returns f, w') ->
  f = failed ++ match res with [] => b | _ :: _ => [] end
  /\ files w' !! jf = Some (c ++ List.map JsonLine res)
  /\ stdout w' = stdout w.
Proof.
  intros Hc. unfold consume, lift. unfold bind at 1.
  destruct res as [|d res].
  - cbn. intros [= <- <-]. rewrite app_nil_r. auto.
  - unfold bind at 1. unfold py_open.
    destruct (open_error env (opens w) ModeA jf) as [e|]; [discriminate|].
    rewrite Hc.
    set (w1 := {| files := files w; stdout := stdout w; opens := S (opens w) |}).
    unfold bind.
    destruct (write_all_spec jf (List.map JsonLine (d :: res)) w1) as (Hr & Hout & Hfiles).
    specialize (Hfiles c Hc).
    destruct (write_all jf (List.map JsonLine (d :: res)) w1) as [r w2].
    cbn [fst snd] in *. subst r. cbn [ret].
    intros [= <- <-]. rewrite app_nil_r. auto.
Qed.

Lemma consume_all_spec env jf units : forall failed w c f w',
  files w !! jf = Some c ->
  consume_all env jf failed (List.map Returns units) w = (Returns f, w') ->
  f = failed ++ failed_of units
  /\ files w' !! jf = Some (c ++ List.map JsonLine (stored_of units))
  /\ stdout w' = stdout w.
Proof.
  induction units as [|[res b] units IH]; intros failed w c f w' Hc.
  - cbn. intros [= <- <-]. rewrite !app_nil_r. auto.
  - cbn [List.map consume_all]. unfold bind.
    destruct (consume env jf failed (Returns (res, b)) w) as [[f1|e] w1] eqn:Hstep;
      [|discriminate].
    destruct (consume_spec _ _ _ _ _ _ _ _ _ Hc Hstep) as (-> & Hfiles & Hout).
    intros Hf. destruct (IH _ _ _ _ _ Hfiles Hf) as (-> & Hfiles' & Hout').
    unfold failed_of, stored_of in *. cbn [flat_map fst snd].
    rewrite Hfiles', Hout', Hout, List.map_app, <- !app_assoc. auto.
Qed.

Lemma keeps_consume_all env jf p completed : forall failed,
  p <> jf -> keeps p (consume_all env jf failed completed).
Proof.
  induction completed as [|future rest IH]; intros failed Hne; [apply keeps_ret|].
  cbn [consume_all]. apply keeps_bind; [|intros f; apply IH; exact Hne].
  unfold consume. apply keeps_bind; [apply keeps_lift|]. intros [res b].
  destruct res; [apply keeps_ret|].
  apply keeps_bind; [apply keeps_py_open; exact Hne|intros _].
  apply keeps_bind; [apply keeps_write_all; exact Hne|intros _; apply keeps_ret].
Qed.

(** The fetch phase, when it returns: the Dataset file holds the kept rows of
    the units in completion order, [failed_ids] the identifiers of the units
    that kept nothing, and nothing was printed by the main thread. *)
Lemma fetch_phase_spec env order pm_ids prefix w failed :
  fst (fetch_phase env order pm_ids prefix w) = Returns failed ->
  let units := as_completed order (unit_outcomes env pm_ids) in
  failed = failed_of units
  /\ files (snd (fetch_phase env order pm_ids prefix w))
       !! (prefix +:+ "id_information.json")
     = Some (Raw EmptyString :: List.map JsonLine (stored_of units))
  /\ stdout (snd (fetch_phase env order pm_ids prefix w)) = stdout w.
Proof.
  destruct (fetch_phase env order pm_ids prefix w) as [r w'] eqn:Hrun.
  cbn [fst snd]. intros ->. revert Hrun.
  unfold fetch_phase. rewrite submit_all_unit, as_completed_map.
  set (jf := prefix +:+ "id_information.json").
  set (units := as_completed order (unit_outcomes env pm_ids)).
  unfold bind at 1. unfold py_open.
  destruct (open_error env (opens w) ModeW jf) as [e|]; [discriminate|].
  unfold bind at 1. cbn [write files stdout opens].
  intros Hf.
  apply consume_all_spec with (c := [Raw EmptyString]) in Hf.
  - destruct Hf as (-> & Hfiles & Hout). cbn zeta. rewrite Hfiles, Hout. auto.
  - cbn [files]. rewrite lookup_insert_eq, lookup_insert_eq. reflexivity.
Qed.

(** ** Dataset and FailedSet after the fetch phase *)

Lemma rows_of_json_lines l : rows_of (List.map JsonLine l) = l.
Proof. induction l as [|x l IH]; [reflexivity|]. cbn. f_equal. exact IH. Qed.

Lemma dataset_after_fetch env order pm_ids prefix w failed :
  fst (fetch_phase env order pm_ids prefix w) = Returns failed ->
  dataset prefix (snd (fetch_phase env order pm_ids prefix w))
  = stored_of (as_completed order (unit_outcomes env pm_ids)).
Proof.
  intros Hrun. destruct (fetch_phase_spec _ _ _ _ _ _ Hrun) as (_ & Hfiles & _).
  unfold dataset. rewrite Hfiles. cbn [default]. apply rows_of_json_lines.
Qed.

Lemma completed_units_perm env order pm_ids :
  Permutation order (seq 0 (length pm_ids)) ->
  Permutation (as_completed order (unit_outcomes env pm_ids)) (unit_outcomes env pm_ids).
Proof.
  intros Hperm. apply as_completed_perm.
  unfold unit_outcomes. rewrite length_imap. exact Hperm.
Qed.

Lemma in_kept env i pmid r :
  In r (kept env i pmid)
  <-> snd (fetch_article_data (remote env i) pmid default_retries) = Returns (Some r)
      /\ usable r = true.
Proof.
  unfold kept, fetched.
  destruct (fetch_returns (remote env i) pmid default_retries) as [v ->];
    [unfold default_retries; lia|].
  destruct v as [d|]; [destruct (usable d) eqn:Hu|]; cbn; split.
  - intros [->|[]]. auto.
  - intros [[= ->] _]. auto.
  - intros [].
  - intros [[= ->] Hr]. congruence.
  - intros [].
  - intros [[=] _].
Qed.

Lemma in_unit_outcomes env pm_ids u :
  In u (unit_outcomes env pm_ids)
  <-> exists i pmid, pm_ids !! i = Some pmid /\ u = (kept env i pmid, [pmid]).
Proof.
  unfold unit_outcomes. rewrite <- list_elem_of_In, elem_of_lookup_imap.
  split; intros (i & pmid & H1 & H2); eauto.
Qed.

Lemma in_stored_of_units env pm_ids r :
  In r (stored_of (unit_outcomes env pm_ids))
  <-> exists i pmid, pm_ids !! i = Some pmid /\ In r (kept env i pmid).
Proof.
  unfold stored_of. rewrite in_flat_map. split.
  - intros (u & Hu & Hr). apply in_unit_outcomes in Hu as (i & pmid & Hi & ->). eauto.
  - intros (i & pmid & Hi & Hr). exists (kept env i pmid, [pmid]).
    split; [apply in_unit_outcomes; eauto|exact Hr].
Qed.

Lemma usable_iff d :
  usable d = true
  <-> abstract d <> EmptyString /\ exists x, doi d = Some x /\ x <> EmptyString.
Proof.
  unfold usable, truthy, truthy_str. split.
  - intros H. apply andb_prop in H as [Ha Hd]. split.
    + destruct (abstract d); [discriminate|discriminate].
    + destruct (doi d) as [[|c x]|]; try discriminate. eexists; split; [reflexivity|discriminate].
  - intros [Ha (x & Hx & Hne)]. rewrite Hx.
    destruct (abstract d); [congruence|]. destruct x; [congruence|reflexivity].
Qed.

Lemma kept_length env i pmid : (length (kept env i pmid) <= 1)%nat.
Proof.
  unfold kept. destruct (fetched env i pmid) as [d|]; [destruct (usable d)|]; cbn; lia.
Qed.

Lemma units_counted (k : nat -> string -> list ArticleData) (l : list string) :
  (forall i x, (length (k i x) <= 1)%nat) ->
  (length (stored_of (imap (fun i x => (k i x, [x])) l))
   + length (failed_of (imap (fun i x => (k i x, [x])) l)))%nat = length l.
Proof.
  revert k. induction l as [|x l IH]; intros k Hk; [reflexivity|].
  rewrite imap_cons. unfold stored_of, failed_of in *. cbn [flat_map fst snd].
  rewrite !length_app. specialize (IH (fun i => k (S i)) (fun i => Hk (S i))).
  unfold compose. cbn [length]. specialize (Hk O x).
  destruct (k O x) as [|d [|d' rest]]; cbn [length] in *; lia.
Qed.

Lemma stored_of_perm units units' :
  Permutation units units' -> Permutation (stored_of units) (stored_of units').
Proof. intros H. unfold stored_of. rewrite H. reflexivity. Qed.

Lemma failed_of_perm units units' :
  Permutation units units' -> Permutation (failed_of units) (failed_of units').
Proof. intros H. unfold failed_of. rewrite H. reflexivity. Qed.

Lemma perm_in_iff {A} (l l' : list A) x : Permutation l l' -> In x l <-> In x l'.
Proof.
  intros H. split; apply Permutation_in; [exact H|symmetry; exact H].
Qed.

(** C2. When the fetch phase returns, a record is in the Dataset exactly when
    it is what the fetch of some input identifier returned and it passes the
    usability test; so the record fetched for an identifier is in the Dataset
    exactly when it passes the test.  The test holds exactly when the
    abstract and the DOI of the record are both non-empty.  The test is not part of the fetcher: a fetch whose first
    attempt parses an article returns its record, usable or not. *)
Theorem dataset_iff_fetched_and_usable (env : Env) (order : list nat)
    (pm_ids : list string) (prefix : string) (w : World) (failed : list string)
    (r : ArticleData)
    (parse : string -> Z -> result Article) (pmid' : string) (a : Article)
    (retries : Z) :
  Permutation order (seq 0 (length pm_ids)) ->
  fst (fetch_phase env order pm_ids prefix w) = Returns failed ->
  parse pmid' 0 = Returns a ->
  1 <= retries ->
  (In r (dataset prefix (snd (fetch_phase env order pm_ids prefix w)))
   <-> exists i pmid,
         pm_ids !! i = Some pmid
         /\ snd (fetch_article_data (remote env i) pmid default_retries)
            = Returns (Some r)
         /\ usable r = true)
  /\ (forall i pmid,
        pm_ids !! i = Some pmid ->
        snd (fetch_article_data (remote env i) pmid default_retries)
        = Returns (Some r) ->
        (In r (dataset prefix (snd (fetch_phase env order pm_ids prefix w)))
         <-> usable r = true))
  /\ (usable r = true
      <-> abstract r <> EmptyString
          /\ exists x, doi r = Some x /\ x <> EmptyString)
  /\ snd (fetch_article_data parse pmid' retries)
     = Returns (Some (article_data pmid' a)).
Proof.
  intros Hperm Hrun Hparse HR.
  assert (Hin : In r (dataset prefix (snd (fetch_phase env order pm_ids prefix w)))
                <-> exists i pmid,
                      pm_ids !! i = Some pmid
                      /\ snd (fetch_article_data (remote env i) pmid default_retries)
                         = Returns (Some r)
                      /\ usable r = true).
  { rewrite (dataset_after_fetch _ _ _ _ _ _ Hrun).
    rewrite (perm_in_iff _ _ r
               (stored_of_perm _ _ (completed_units_perm env _ _ Hperm))).
    rewrite in_stored_of_units.
    split; intros (i & pmid & Hi & Hr); exists i, pmid; (split; [exact Hi|]);
      apply in_kept; exact Hr. }
  split; [exact Hin|]. split; [|split].
  - intros i pmid Hi Hfetch. rewrite Hin. split.
    + intros (_ & _ & _ & _ & Hu). exact Hu.
    + intros Hu. exists i, pmid. auto.
  - apply usable_iff.
  - destruct (fetch_trace parse pmid' retries HR) as (n & tail & v & _ & Heq & Hfail & Hend).
    destruct n as [|n].
    + rewrite Heq. cbn [snd]. change (Z.of_nat 0) with 0 in Hend.
      destruct Hend as [(a' & Ha' & _ & ->)|[(e & He & _)|(e & e' & He & _)]];
        congruence.
    + destruct (Hfail O) as [[e He] _]; [lia|]. change (Z.of_nat 0) with 0 in He.
      congruence.
Qed.

(** A completion order that differs from the submission order. *)
Lemma order_201 : Permutation [2; 0; 1]%nat (seq 0 (length scenario_ids)).
Proof.
  apply perm_trans with [0; 2; 1]%nat; [apply perm_swap|].
  apply perm_skip, perm_swap.
Defined.

(** The scenario run, completing in the order 2, 0, 1. *)
Lemma dataset_iff_fetched_and_usable_witness :
  let run := fetch_phase scenario_env [2; 0; 1]%nat scenario_ids EmptyString empty_world in
  let r := article_data "A1" sample_article in
  (In r (dataset EmptyString (snd run))
   <-> exists i pmid,
         scenario_ids !! i = Some pmid
         /\ snd (fetch_article_data (remote scenario_env i) pmid default_retries)
            = Returns (Some r)
         /\ usable r = true)
  /\ (forall i pmid,
        scenario_ids !! i = Some pmid ->
        snd (fetch_article_data (remote scenario_env i) pmid default_retries)
        = Returns (Some r) ->
        (In r (dataset EmptyString (snd run)) <-> usable r = true))
  /\ (usable r = true
      <-> abstract r <> EmptyString
          /\ exists x, doi r = Some x /\ x <> EmptyString)
  /\ snd (fetch_article_data (scenario_remote 1) "A2" 3)
     = Returns (Some (article_data "A2" unusable_article)).
Proof.
  apply (dataset_iff_fetched_and_usable scenario_env [2; 0; 1]%nat scenario_ids
           EmptyString empty_world ["A3"; "A2"] (article_data "A1" sample_article)
           (scenario_remote 1) "A2" unusable_article 3).
  - exact order_201.
  - vm_compute. reflexivity.
  - reflexivity.
  - lia.
Defined.

(** C9. With units of one identifier, when the fetch phase returns, the rows
    of the Dataset and the identifiers in [failed_ids] (one per failed unit)
    together number at least, in fact exactly, the input identifiers; every
    identifier was attempted, and is either in [failed_ids] or has the record
    its fetch returned in the Dataset.  This holds for every input list, the
    empty one included. *)
Theorem every_unit_accounted (env : Env) (order : list nat) (pm_ids : list string)
    (prefix : string) (w : World) (failed : list string) :
  Permutation order (seq 0 (length pm_ids)) ->
  fst (fetch_phase env order pm_ids prefix w) = Returns failed ->
  let stored := dataset prefix (snd (fetch_phase env order pm_ids prefix w)) in
  (length pm_ids <= length stored + length failed)%nat
  /\ (length stored + length failed)%nat = length pm_ids
  /\ (forall i pmid, pm_ids !! i = Some pmid ->
        attempts_of (fst (fetch_article_data (remote env i) pmid default_retries)) <> []
        /\ (In pmid failed
            \/ exists r, fetched env i pmid = Some r /\ In r stored)).
Proof.
  intros Hperm Hrun stored. subst stored.
  rewrite (dataset_after_fetch _ _ _ _ _ _ Hrun).
  destruct (fetch_phase_spec _ _ _ _ _ _ Hrun) as (-> & _ & _).
  pose proof (completed_units_perm env _ _ Hperm) as Hunits.
  assert (Hcount : (length (stored_of (as_completed order (unit_outcomes env pm_ids)))
                    + length (failed_of (as_completed order (unit_outcomes env pm_ids))))%nat
                   = length pm_ids).
  { rewrite (Permutation_length (stored_of_perm _ _ Hunits)).
    rewrite (Permutation_length (failed_of_perm _ _ Hunits)).
    apply (units_counted (kept env)). apply kept_length. }
  split; [lia|]. split; [exact Hcount|].
  intros i pmid Hi. split.
  - destruct (fetch_shape (remote env i) pmid default_retries) as (n & tail & r & _ & Heq & _);
      [unfold default_retries; lia|].
    rewrite Heq. cbn [fst]. rewrite attempts_of_app.
    intros Hnil. apply app_eq_nil in Hnil as [_ Hnil]. discriminate Hnil.
  - assert (Hu : In (kept env i pmid, [pmid]) (unit_outcomes env pm_ids))
      by (apply in_unit_outcomes; eauto).
    destruct (kept env i pmid) as [|r rest] eqn:Hkept.
    + left. apply (perm_in_iff _ _ pmid (failed_of_perm _ _ Hunits)).
      unfold failed_of. apply in_flat_map. eexists. split; [exact Hu|]. cbn. auto.
    + right. exists r. split.
      * unfold kept in Hkept. destruct (fetched env i pmid) as [d|]; [|discriminate].
        destruct (usable d); [|discriminate]. congruence.
      * apply (perm_in_iff _ _ r (stored_of_perm _ _ Hunits)).
        unfold stored_of. apply in_flat_map. eexists. split; [exact Hu|]. cbn. auto.
Qed.

(** The count on the scenario run: one row and two failed identifiers. *)
Lemma every_unit_accounted_witness :
  let run := fetch_phase scenario_env [2; 0; 1]%nat scenario_ids EmptyString empty_world in
  let stored := dataset EmptyString (snd run) in
  (length scenario_ids <= length stored + length ["A3"; "A2"])%nat
  /\ (length stored + length ["A3"; "A2"])%nat = length scenario_ids
  /\ (forall i pmid, scenario_ids !! i = Some pmid ->
        attempts_of (fst (fetch_article_data (remote scenario_env i) pmid
                            default_retries)) <> []
        /\ (In pmid ["A3"; "A2"]
            \/ exists r, fetched scenario_env i pmid = Some r /\ In r stored)).
Proof.
  apply (every_unit_accounted scenario_env [2; 0; 1]%nat scenario_ids EmptyString
           empty_world ["A3"; "A2"]).
  - exact order_201.
  - vm_compute. reflexivity.
Defined.




(** ** Classifier/Exporter: the views in closed form *)

Lemma classify_fold select_link articles : forall v,
  fold_left (classify_step select_link) articles v
  = {| pmcids := pmcids v ++ omap listed_pmc articles;
       no_pmcids := no_pmcids v ++ List.filter (fun a => negb (has_pmc a)) articles;
       all_md := all_md v ++ List.map format_article_markdown articles;
       link_articles :=
         link_articles v ++ (if select_link then List.filter matched articles else []);
       no_link_articles :=
         no_link_articles v
           ++ (if select_link then List.filter (fun a => negb (matched a)) articles
               else []) |}.
Proof.
  induction articles as [|a articles IH]; intros v.
  - cbn. destruct v, select_link; cbn; rewrite !app_nil_r; reflexivity.
  - cbn [fold_left]. rewrite IH. unfold classify_step, listed_pmc, has_pmc, matched.
    cbn [pmcids no_pmcids all_md link_articles no_link_articles
         omap list_omap List.filter List.map].
    destruct (pmc_id a) as [[|c s]|]; cbn [truthy truthy_str negb default];
      destruct select_link; cbn [andb];
      destruct (has_github_link (abstract a)); cbn [negb];
      rewrite <- ?app_assoc; reflexivity.
Qed.

Lemma classify_views select_link articles :
  classify select_link articles
  = {| pmcids := omap listed_pmc articles;
       no_pmcids := List.filter (fun a => negb (has_pmc a)) articles;
       all_md := List.map format_article_markdown articles;
       link_articles := if select_link then List.filter matched articles else [];
       no_link_articles :=
         if select_link then List.filter (fun a => negb (matched a)) articles
         else [] |}.
Proof. unfold classify. rewrite classify_fold. reflexivity. Qed.

Lemma filter_split_perm {A} (f : A -> bool) (l : list A) :
  Permutation (List.filter f l ++ List.filter (fun x => negb (f x)) l) l.
Proof.
  induction l as [|x l IH]; [constructor|].
  cbn [List.filter]. destruct (f x); cbn [negb app].
  - apply perm_skip. exact IH.
  - symmetry. apply Permutation_cons_app. symmetry. exact IH.
Qed.

Lemma filter_split_length {A} (f : A -> bool) (l : list A) :
  (length (List.filter f l) + length (List.filter (fun x => negb (f x)) l))%nat
  = length l.
Proof. rewrite <- length_app. apply Permutation_length, filter_split_perm. Qed.

Lemma has_pmc_false_iff a :
  has_pmc a = false <-> pmc_id a = None \/ pmc_id a = Some EmptyString.
Proof.
  unfold has_pmc, truthy, truthy_str.
  destruct (pmc_id a) as [[|c s]|]; split; intros H; auto; try discriminate;
    destruct H as [H|H]; discriminate H.
Qed.

Lemma in_listed_pmcs articles s :
  In s (omap listed_pmc articles)
  <-> s <> EmptyString /\ exists a, In a articles /\ pmc_id a = Some s.
Proof.
  rewrite <- list_elem_of_In, list_elem_of_omap. split.
  - intros (a & Ha & Hs). apply list_elem_of_In in Ha.
    unfold listed_pmc, has_pmc, truthy in Hs.
    destruct (pmc_id a) as [[|c x]|] eqn:Hp; try discriminate.
    injection Hs as <-. split; [discriminate|eauto].
  - intros (Hne & a & Ha & Hp). exists a. split; [apply list_elem_of_In; exact Ha|].
    unfold listed_pmc, has_pmc, truthy. rewrite Hp.
    destruct s; [congruence|reflexivity].
Qed.

Lemma length_listed_pmcs articles :
  length (omap listed_pmc articles) = length (List.filter has_pmc articles).
Proof.
  induction articles as [|a articles IH]; [reflexivity|].
  cbn [omap list_omap List.filter]. unfold listed_pmc at 1.
  destruct (has_pmc a) eqn:Hp.
  - unfold has_pmc, truthy in Hp. destruct (pmc_id a); [|discriminate].
    cbn [length]. f_equal. exact IH.
  - exact IH.
Qed.

(** C8, as stated, fails: with [select_link=False] the loop fills neither
    classification list, so a record of the Dataset is in neither. *)
Lemma no_selection_no_partition :
  ~ (forall (select_link : bool) (articles : list ArticleData),
        let v := classify select_link articles in
        Permutation (link_articles v ++ no_link_articles v) articles
        /\ (forall r, In r articles ->
              In r (link_articles v) \/ In r (no_link_articles v))).
Proof.
  intros H.
  destruct (H false [article_data "A1" sample_article]) as [Hperm _].
  rewrite classify_views in Hperm. cbn in Hperm.
  apply Permutation_nil in Hperm. discriminate Hperm.
Qed.

(** C8, amended.  With [select_link=True] the matched and the unmatched list
    are disjoint and together are a rearrangement of the Dataset, each record
    being in the one its abstract selects.  Whatever [select_link] is, each
    record either has its truthy secondary-repository ID in [pmcids] or is
    itself in [no_pmcids], never both, and the two lists together have one
    entry per record.  With [select_link=False] the matched and the unmatched
    list both stay empty, whatever the Dataset holds. *)
Theorem export_partitions (select_link : bool) (articles : list ArticleData) :
  let v := classify true articles in
  let v' := classify select_link articles in
  let unselected := classify false articles in
  (Permutation (link_articles v ++ no_link_articles v) articles
   /\ (forall r, ~ (In r (link_articles v) /\ In r (no_link_articles v)))
   /\ (forall r, In r articles ->
         (In r (link_articles v) /\ matched r = true)
         \/ (In r (no_link_articles v) /\ matched r = false)))
  /\ ((length (pmcids v') + length (no_pmcids v'))%nat = length articles
      /\ (forall r, In r articles ->
            (has_pmc r = true
             /\ (exists s, pmc_id r = Some s /\ In s (pmcids v'))
             /\ ~ In r (no_pmcids v'))
            \/ (has_pmc r = false
                /\ In r (no_pmcids v')
                /\ forall s, pmc_id r = Some s -> ~ In s (pmcids v'))))
  /\ (link_articles unselected = [] /\ no_link_articles unselected = []).
Proof.
  cbv zeta. rewrite !classify_views.
  cbn [pmcids no_pmcids link_articles no_link_articles].
  split; [split; [|split]|split; [split|split; reflexivity]].
  - apply filter_split_perm.
  - intros r [H1 H2]. apply filter_In in H1 as [_ H1], H2 as [_ H2].
    rewrite H1 in H2. discriminate H2.
  - intros r Hr. destruct (matched r) eqn:Hm; [left|right];
      (split; [apply filter_In; rewrite Hm; auto|reflexivity]).
  - rewrite length_listed_pmcs. apply filter_split_length.
  - intros r Hr. destruct (has_pmc r) eqn:Hp; [left|right].
    + split; [reflexivity|]. split.
      * unfold has_pmc, truthy in Hp. destruct (pmc_id r) as [s|] eqn:Hs; [|discriminate].
        exists s. split; [reflexivity|]. apply in_listed_pmcs.
        split; [intros ->; discriminate Hp|eauto].
      * intros Hin. apply filter_In in Hin as [_ Hin]. rewrite Hp in Hin. discriminate Hin.
    + split; [reflexivity|]. split; [apply filter_In; rewrite Hp; auto|].
      intros s Hs Hin. apply in_listed_pmcs in Hin as [Hne _].
      apply has_pmc_false_iff in Hp as [Hp|Hp]; congruence.
Qed.

(** C10. A record is in [no_pmcids] exactly when it is in the Dataset and
    its [pmc_id] is [None] or the empty string; [pmcids] is a list of strings,
    the non-empty [pmc_id]s of the records in Dataset order, and holds no
    record. *)
Theorem pmc_routing (select_link : bool) (articles : list ArticleData)
    (r : ArticleData) (s : string) :
  let v := classify select_link articles in
  (In r (no_pmcids v)
   <-> In r articles /\ (pmc_id r = None \/ pmc_id r = Some EmptyString))
  /\ (In s (pmcids v)
      <-> s <> EmptyString /\ exists a, In a articles /\ pmc_id a = Some s)
  /\ no_pmcids v = List.filter (fun a => negb (has_pmc a)) articles
  /\ pmcids v = omap listed_pmc articles.
Proof.
  cbv zeta. rewrite classify_views. cbn [pmcids no_pmcids].
  split; [|split; [apply in_listed_pmcs|split; reflexivity]].
  rewrite filter_In, <- has_pmc_false_iff.
  destruct (has_pmc r); cbn; split; intros [H1 H2]; split; auto; discriminate.
Qed.

(** ** What the main thread prints *)

Lemma quiet_ret {A} (a : A) : quiet (ret a).
Proof. intros w. reflexivity. Qed.

Lemma quiet_lift {A} (r : result A) : quiet (lift r).
Proof. intros w. reflexivity. Qed.

Lemma quiet_read path : quiet (read path).
Proof. intros w. reflexivity. Qed.

Lemma quiet_write path c : quiet (write path c).
Proof. intros w. reflexivity. Qed.

Lemma quiet_py_open env m path : quiet (py_open env m path).
Proof.
  intros w. unfold py_open.
  destruct (open_error env (opens w) m path); [reflexivity|].
  destruct m; try destruct (files w !! path); reflexivity.
Qed.

Lemma quiet_bind {A B} (m : IO A) (k : A -> IO B) :
  quiet m -> (forall a, quiet (k a)) -> quiet (bind m k).
Proof.
  intros Hm Hk w. unfold bind. specialize (Hm w).
  destruct (m w) as [[a|e] w1]; cbn [snd] in *; [rewrite Hk|]; exact Hm.
Qed.

Lemma quiet_write_all path cs : quiet (write_all path cs).
Proof.
  induction cs as [|c cs IH]; [apply quiet_ret|].
  apply quiet_bind; [apply quiet_write|intros _; exact IH].
Qed.

Lemma quiet_save_json_lines env path l : quiet (save_json_lines env path l).
Proof.
  apply quiet_bind; [apply quiet_py_open|intros _; apply quiet_write_all].
Qed.

Lemma quiet_write_text env path text : quiet (write_text env path text).
Proof. apply quiet_bind; [apply quiet_py_open|intros _; apply quiet_write]. Qed.

Lemma quiet_write_html env path md : quiet (write_html env path md).
Proof.
  apply quiet_bind; [apply quiet_py_open|intros _].
  apply quiet_bind; [|intros html; apply quiet_write].
  apply quiet_bind; [apply quiet_lift|intros a; apply quiet_ret].
Qed.

Lemma quiet_on_raise_bind {A B} (m : IO A) (k : A -> IO B) :
  quiet m -> (forall a, quiet_on_raise (k a)) -> quiet_on_raise (bind m k).
Proof.
  intros Hm Hk w e. unfold bind. specialize (Hm w).
  destruct (m w) as [[a|e'] w1]; cbn [fst snd] in *.
  - intros Hr. rewrite (Hk a w1 e Hr). exact Hm.
  - intros _. exact Hm.
Qed.

Lemma quiet_on_raise_print line : quiet_on_raise (print line).
Proof. intros w e Hr. discriminate Hr. Qed.

(** The export stage prints its summary line last: when it raises, it has
    printed nothing. *)
Lemma export_quiet_on_raise env prefix select_link :
  quiet_on_raise (generate_outputs env prefix select_link).
Proof.
  unfold generate_outputs.
  apply quiet_on_raise_bind; [apply quiet_py_open|intros _].
  apply quiet_on_raise_bind; [apply quiet_read|intros content].
  apply quiet_on_raise_bind; [apply quiet_lift|intros articles].
  apply quiet_on_raise_bind; [apply quiet_write_text|intros _].
  apply quiet_on_raise_bind; [apply quiet_save_json_lines|intros _].
  apply quiet_on_raise_bind; [apply quiet_write_text|intros _].
  apply quiet_on_raise_bind; [apply quiet_write_html|intros _].
  apply quiet_on_raise_bind; [|intros _; apply quiet_on_raise_print].
  destruct select_link; [|apply quiet_ret].
  repeat (apply quiet_bind;
          [first [apply quiet_save_json_lines|apply quiet_write_text
                 |apply quiet_write_html]|intros _]).
  apply quiet_write_html.
Qed.

Lemma keeps_fetch_phase env order pm_ids prefix p :
  p <> prefix +:+ "id_information.json" ->
  keeps p (fetch_phase env order pm_ids prefix).
Proof.
  intros Hne. unfold fetch_phase.
  apply keeps_bind; [apply keeps_py_open; exact Hne|intros _].
  apply keeps_bind; [apply keeps_write; exact Hne|intros _].
  apply keeps_consume_all. exact Hne.
Qed.

(** The run after the fetch phase, when the export stage raises [e]. *)
Lemma export_and_save_on_raise env prefix select_link failed w e :
  fst (generate_outputs env prefix select_link w) = Raises e ->
  export_and_save env prefix select_link failed w
  = (Returns tt,
     {| files := files (snd (generate_outputs env prefix select_link w));
        stdout := stdout w ++ ["Error generating output files: " +:+ e];
        opens := opens (snd (generate_outputs env prefix select_link w)) |}).
Proof.
  intros Hr. pose proof (export_quiet_on_raise env prefix select_link w e Hr) as Hout.
  unfold export_and_save. unfold bind at 1. unfold try_except. unfold bind at 1.
  destruct (generate_outputs env prefix select_link w) as [r w1].
  cbn [fst snd] in *. subst r. cbn. rewrite Hout. reflexivity.
Qed.

(** The run after the fetch phase, when the export stage returns: the failure
    log is written, once and whole, exactly when [failed_ids] is not empty. *)
Lemma export_and_save_on_return env prefix select_link failed w :
  let w1 := snd (generate_outputs env prefix select_link w) in
  fst (generate_outputs env prefix select_link w) = Returns tt ->
  open_error env (opens w1) ModeW "failed_ids.txt" = None ->
  fst (export_and_save env prefix select_link failed w) = Returns tt
  /\ files (snd (export_and_save env prefix select_link failed w)) !! "failed_ids.txt"
     = match failed with
       | [] => files w1 !! "failed_ids.txt"
       | _ :: _ => Some [Raw (join nl failed)]
       end.
Proof.
  cbv zeta. intros Hr Hopen.
  destruct (generate_outputs env prefix select_link w) as [r w1] eqn:Hgen.
  cbn [fst snd] in *. subst r.
  unfold export_and_save, try_except, bind. rewrite Hgen. cbn [ret].
  destruct failed as [|x failed]; [split; reflexivity|].
  unfold write_text, bind, py_open. rewrite Hopen. cbn [write print fst snd files].
  split; [reflexivity|]. rewrite lookup_insert_eq, lookup_insert_eq. reflexivity.
Qed.

(** C6. When the fetch phase returns and the export stage then raises [e],
    the run returns normally, its last printed line reports [e], the Dataset
    file is exactly as the fetch phase left it, and the failure log is the
    file it was before the run. *)
Theorem export_failure_preserves_fetch_results (env : Env) (order : list nat)
    (pm_ids : list string) (prefix : string) (select_link : bool) (w : World)
    (failed : list string) (e : string) :
  let fetch := fetch_phase env order pm_ids prefix w in
  let run := process_all_ids env order pm_ids prefix select_link w in
  fst fetch = Returns failed ->
  fst (generate_outputs env prefix select_link (snd fetch)) = Raises e ->
  fst run = Returns tt
  /\ stdout (snd run)
     = stdout (snd fetch) ++ ["Error generating output files: " +:+ e]
  /\ files (snd run) !! (prefix +:+ "id_information.json")
     = files (snd fetch) !! (prefix +:+ "id_information.json")
  /\ dataset prefix (snd run) = dataset prefix (snd fetch)
  /\ files (snd run) !! "failed_ids.txt" = files w !! "failed_ids.txt".
Proof.
  cbv zeta. intros Hfetch Hexport.
  pose proof (keeps_fetch_phase env order pm_ids prefix "failed_ids.txt"
                (failure_log_is_not_dataset prefix) w) as Hlog.
  unfold process_all_ids. unfold bind at 1 2 3 4 5.
  destruct (fetch_phase env order pm_ids prefix w) as [r w1].
  cbn [fst snd] in *. subst r.
  rewrite (export_and_save_on_raise _ _ _ _ _ _ Hexport). cbn [fst snd files stdout].
  pose proof (export_keeps_dataset env prefix select_link w1) as Hds.
  pose proof (export_keeps_failure_log env prefix select_link w1) as Hfl.
  unfold dataset. cbn [files]. rewrite Hds, Hfl, Hlog. auto.
Qed.

(** The scenario run in a directory where [pmcids.txt] is read-only. *)
Lemma export_failure_preserves_fetch_results_witness :
  let env := read_only_pmcids scenario_remote in
  let fetch := fetch_phase env [0; 1; 2]%nat scenario_ids EmptyString empty_world in
  let run := process_all_ids env [0; 1; 2]%nat scenario_ids EmptyString true
               empty_world in
  fst run = Returns tt
  /\ stdout (snd run)
     = stdout (snd fetch)
         ++ ["Error generating output files: "
             +:+ "[Errno 13] Permission denied: 'pmcids.txt'"]
  /\ files (snd run) !! (EmptyString +:+ "id_information.json")
     = files (snd fetch) !! (EmptyString +:+ "id_information.json")
  /\ dataset EmptyString (snd run) = dataset EmptyString (snd fetch)
  /\ files (snd run) !! "failed_ids.txt" = files empty_world !! "failed_ids.txt".
Proof.
  apply (export_failure_preserves_fetch_results (read_only_pmcids scenario_remote)
           [0; 1; 2]%nat scenario_ids EmptyString true empty_world ["A2"; "A3"]
           "[Errno 13] Permission denied: 'pmcids.txt'").
  - vm_compute. reflexivity.
  - vm_compute. reflexivity.
Defined.

(** C7 on a failing run.  One identifier whose fetch fails, in a directory
    where [pmcids.txt] is read-only: [failed_ids] is not empty, the export
    stage raises, the run returns at line 188 and [failed_ids.txt] is never
    written.  The same input without the fault writes the log. *)
Theorem failure_log_lost_when_export_fails :
  let remote := fun _ : nat => always_down "timed out" in
  let faulty := process_all_ids (read_only_pmcids remote) [0%nat] ["A3"] EmptyString
                  true empty_world in
  let sound := process_all_ids (plain_env remote) [0%nat] ["A3"] EmptyString true
                 empty_world in
  fst (fetch_phase (read_only_pmcids remote) [0%nat] ["A3"] EmptyString empty_world)
  = Returns ["A3"]
  /\ fst faulty = Returns tt
  /\ stdout (snd faulty)
     = ["Error generating output files: [Errno 13] Permission denied: 'pmcids.txt'"]
  /\ files (snd faulty) !! "failed_ids.txt" = None
  /\ files (snd sound) !! "failed_ids.txt" = Some [Raw "A3"].
Proof.
  cbv zeta. repeat split; vm_compute; reflexivity.
Qed.

(** * Further properties of the code *)

(** ** RecordFetcher *)

(** X1. A fetch returns a record exactly when some attempt within the budget
    parses an article after every earlier attempt raised, and that attempt is
    none later than attempt 21: the delay [3 ^ 21] that would precede attempt
    22 is one [time.sleep] refuses.  The record is the normalisation of that
    article, the trace ends with that attempt, and nothing is printed.  With
    a budget of at most 22 the bound on the attempt holds of itself. *)
Theorem fetch_succeeds_iff (parse : string -> Z -> result Article)
    (pmid : string) (retries : Z) (d : ArticleData) :
  (snd (fetch_article_data parse pmid retries) = Returns (Some d)
   <-> exists n a,
         0 <= n < retries /\ n <= 21
         /\ (forall k, 0 <= k < n -> exists e, parse pmid k = Raises e)
         /\ parse pmid n = Returns a
         /\ d = article_data pmid a)
  /\ (forall n a,
        0 <= n < retries -> n <= 21 ->
        (forall k, 0 <= k < n -> exists e, parse pmid k = Raises e) ->
        parse pmid n = Returns a ->
        fetch_article_data parse pmid retries
        = (retry_prefix pmid 0 (Z.to_nat n) ++ [EvParse pmid n],
           Returns (Some (article_data pmid a)))).
Proof.
  assert (Hexact : forall n a,
             0 <= n < retries -> n <= 21 ->
             (forall k, 0 <= k < n -> exists e, parse pmid k = Raises e) ->
             parse pmid n = Returns a ->
             fetch_article_data parse pmid retries
             = (retry_prefix pmid 0 (Z.to_nat n) ++ [EvParse pmid n],
                Returns (Some (article_data pmid a)))).
  { intros n a Hn Hn21 Hfail Hok.
    destruct (fetch_trace parse pmid retries) as (m & tail & r & Hm & Heq & Hbefore & Hend);
      [lia|].
    assert (Z.of_nat m = n) as Hmn.
    { destruct (Z.lt_trichotomy (Z.of_nat m) n) as [Hlt|[Heq'|Hgt]]; [|exact Heq'|].
      - destruct (Hfail (Z.of_nat m)) as [e He]; [lia|].
        destruct Hend as [(a' & Ha' & _)|[(e' & _ & Hlast & _)
                                          |(e' & e2 & _ & _ & Hs & _)]];
          [congruence|lia|].
        rewrite time_sleep_returns in Hs by lia. discriminate Hs.
      - destruct (Hbefore (Z.to_nat n)) as [[e He] _]; [lia|].
        rewrite Z2Nat.id in He by lia. congruence. }
    rewrite Heq. subst n. rewrite Nat2Z.id.
    destruct Hend as [(a' & Ha' & -> & ->)|[(e' & He' & _)|(e' & e2 & He' & _)]];
      congruence. }
  split; [|exact Hexact]. split.
  - intros Hres. destruct (Z_le_gt_dec retries 0) as [Hle|Hgt].
    { rewrite fetch_no_budget in Hres by exact Hle. discriminate Hres. }
    destruct (fetch_trace parse pmid retries) as (m & tail & r & Hm & Heq & Hbefore & Hend);
      [lia|].
    rewrite Heq in Hres. cbn [snd] in Hres.
    destruct Hend as [(a & Ha & _ & ->)|[(e & _ & _ & _ & ->)
                                         |(e & e' & _ & _ & _ & _ & ->)]];
      [|discriminate Hres|discriminate Hres].
    exists (Z.of_nat m), a. split; [lia|].
    split; [|split; [|split; [exact Ha|congruence]]].
    + destruct (Z_le_gt_dec (Z.of_nat m) 21) as [Hle|Hgt']; [exact Hle|].
      destruct (Hbefore (m - 1)%nat) as [_ Hs]; [lia|].
      destruct (time_sleep_raises (Z.of_nat (m - 1))) as [e' He']; [lia|].
      congruence.
    + intros k Hk. destruct (Hbefore (Z.to_nat k)) as [[e He] _]; [lia|].
      rewrite Z2Nat.id in He by lia. eauto.
  - intros (n & a & Hn & Hn21 & Hfail & Hok & ->).
    rewrite (Hexact n a Hn Hn21 Hfail Hok). reflexivity.
Qed.

Lemma fetch_succeeds_iff_witness :
  fetch_article_data (flaky_twice sample_article) "A1" 3
  = (retry_prefix "A1" 0 (Z.to_nat 2) ++ [EvParse "A1" 2],
     Returns (Some (article_data "A1" sample_article))).
Proof.
  apply (proj2 (fetch_succeeds_iff (flaky_twice sample_article) "A1" 3
                  (article_data "A1" sample_article)) 2 sample_article).
  - lia.
  - lia.
  - intros k Hk. exists "timed out". unfold flaky_twice.
    destruct (Z.ltb_spec k 2) as [_|Hge]; [reflexivity|lia].
  - reflexivity.
Defined.

(** Beyond the bound: with a budget of 23 and a remote that fails every
    attempt, the fetch makes 22 attempts, sleeps after the first 21 of them,
    and raises when it asks for the delay [3 ^ 21]; nothing is printed. *)
Example fetch_raises_with_budget_23 :
  let run := fetch_article_data (always_down "timed out") "A3" 23 in
  snd run = Raises "timestamp too large to convert to C _PyTime_t"
  /\ attempts_of (fst run) = List.map Z.of_nat (seq 0 22)
  /\ sleeps_of (fst run) = List.map (fun k => 3 ^ Z.of_nat k) (seq 0 21)
  /\ prints_of (fst run) = [].
Proof. cbv zeta. repeat split; vm_compute; reflexivity. Qed.

Lemma geometric_sleeps (pmid : string) (n : nat) :
  2 * total_sleep (retry_prefix pmid 0 n) + 1 = 3 ^ Z.of_nat n.
Proof.
  unfold total_sleep. rewrite sleeps_of_retry_prefix.
  induction n as [|n IH]; [reflexivity|].
  rewrite seq_S, List.map_app, foldr_app. cbn [List.map foldr Nat.add].
  rewrite Z.add_0_r, Z.add_0_l.
  assert (Hshift : forall (l : list Z) (x : Z), foldr Z.add x l = foldr Z.add 0 l + x).
  { intros l x. induction l as [|y l IHl]; cbn [foldr]; [lia|]. rewrite IHl. lia. }
  rewrite Hshift. rewrite Nat2Z.inj_succ, Z.pow_succ_r by lia. lia.
Qed.

(** X2. A fetch with budget [R >= 1] that made [a] attempts slept
    [(3^(a-1) - 1) / 2] seconds in all; it makes between one and [R]
    attempts, so it never sleeps more than [(3^(R-1) - 1) / 2] seconds: at
    most 4 with the default budget. *)
Theorem total_backoff_bound (parse : string -> Z -> result Article)
    (pmid : string) (R : Z) :
  1 <= R ->
  let evs := fst (fetch_article_data parse pmid R) in
  let made := Z.of_nat (length (attempts_of evs)) in
  1 <= made <= R
  /\ 2 * total_sleep evs + 1 = 3 ^ (made - 1)
  /\ 2 * total_sleep evs + 1 <= 3 ^ (R - 1)
  /\ total_sleep (fst (fetch_article_data parse pmid default_retries)) <= 4.
Proof.
  assert (Hgen : forall R', 1 <= R' ->
            let evs := fst (fetch_article_data parse pmid R') in
            let made := Z.of_nat (length (attempts_of evs)) in
            1 <= made <= R'
            /\ 2 * total_sleep evs + 1 = 3 ^ (made - 1)).
  { intros R' HR'. cbv zeta.
    destruct (fetch_trace_tail parse pmid R' HR') as (n & tail & Hn & Heq & Hat & Hst).
    rewrite Heq.
    rewrite attempts_of_app, attempts_of_retry_prefix, length_app, length_map, length_seq.
    change (attempts_of (EvParse pmid (Z.of_nat n) :: tail))
      with (Z.of_nat n :: attempts_of tail).
    rewrite Hat. cbn [length]. split; [lia|].
    replace (Z.of_nat (n + 1) - 1) with (Z.of_nat n) by lia.
    rewrite <- (geometric_sleeps pmid n). unfold total_sleep.
    rewrite sleeps_of_app.
    change (sleeps_of (EvParse pmid (Z.of_nat n) :: tail)) with (sleeps_of tail).
    rewrite Hst, app_nil_r. reflexivity. }
  intros HR. cbv zeta.
  destruct (Hgen R HR) as [Hmade Hsum]. split; [exact Hmade|]. split; [exact Hsum|].
  split.
  - rewrite Hsum. apply Z.pow_le_mono_r; lia.
  - destruct (Hgen default_retries) as [Hmade' Hsum']; [unfold default_retries; lia|].
    unfold default_retries in *.
    assert (3 ^ (Z.of_nat (length (attempts_of (fst (fetch_article_data parse pmid 3)))) - 1)
            <= 3 ^ 2) by (apply Z.pow_le_mono_r; lia).
    change (3 ^ 2) with 9 in H. lia.
Qed.

Lemma total_backoff_bound_witness :
  let evs := fst (fetch_article_data (always_down "timed out") "A3" 3) in
  let made := Z.of_nat (length (attempts_of evs)) in
  1 <= made <= 3
  /\ 2 * total_sleep evs + 1 = 3 ^ (made - 1)
  /\ 2 * total_sleep evs + 1 <= 3 ^ (3 - 1)
  /\ total_sleep (fst (fetch_article_data (always_down "timed out") "A3"
                         default_retries)) <= 4.
Proof.
  apply (total_backoff_bound (always_down "timed out") "A3" 3). lia.
Defined.

(** ** Normalisation of a parsed article *)

Lemma next_id_Some ty ids v :
  next_id ty ids = Some v
  <-> exists pre i post,
        ids = pre ++ i :: post /\ id_type i = ty /\ id_value i = v
        /\ Forall (fun j => id_type j <> ty) pre.
Proof.
  unfold next_id. induction ids as [|j ids IH]; cbn [List.find].
  - split; [discriminate|]. intros (pre & i & post & Heq & _).
    destruct pre; discriminate Heq.
  - destruct (String.eqb (id_type j) ty) eqn:Hj.
    + apply String.eqb_eq in Hj. split.
      * intros [= <-]. exists [], j, ids. auto.
      * intros (pre & i & post & Heq & Hty & Hv & Hpre).
        destruct pre as [|p pre]; cbn in Heq; injection Heq as -> ->; [congruence|].
        inversion Hpre; subst. congruence.
    + apply String.eqb_neq in Hj. rewrite IH. split.
      * intros (pre & i & post & -> & Hty & Hv & Hpre).
        exists (j :: pre), i, post. auto.
      * intros (pre & i & post & Heq & Hty & Hv & Hpre).
        destruct pre as [|p pre]; cbn in Heq; injection Heq as -> ->; [congruence|].
        inversion Hpre; subst. eauto 8.
Qed.

Lemma next_id_None ty ids :
  next_id ty ids = None <-> Forall (fun j => id_type j <> ty) ids.
Proof.
  unfold next_id. induction ids as [|j ids IH]; cbn [List.find].
  - split; auto.
  - destruct (String.eqb (id_type j) ty) eqn:Hj.
    + apply String.eqb_eq in Hj. split; [discriminate|].
      intros H. inversion H; subst. congruence.
    + apply String.eqb_neq in Hj. rewrite IH. split.
      * intros H. constructor; assumption.
      * intros H. inversion H; subst. assumption.
Qed.

(** X3. The [doi] of a record is the value of the first id object of type
    [doi] of the article, and [None] exactly when the article has no such
    object; likewise [pmc_id] for type [pmc].  Id objects of the same type
    after the first are never looked at. *)
Theorem record_ids_first_match (pmid : string) (article : Article) (v : string) :
  let d := article_data pmid article in
  (doi d = Some v
   <-> exists pre i post,
         art_ids article = pre ++ i :: post
         /\ id_type i = "doi" /\ id_value i = v
         /\ Forall (fun j => id_type j <> "doi") pre)
  /\ (doi d = None <-> Forall (fun j => id_type j <> "doi") (art_ids article))
  /\ (pmc_id d = Some v
      <-> exists pre i post,
            art_ids article = pre ++ i :: post
            /\ id_type i = "pmc" /\ id_value i = v
            /\ Forall (fun j => id_type j <> "pmc") pre)
  /\ (pmc_id d = None <-> Forall (fun j => id_type j <> "pmc") (art_ids article)).
Proof.
  cbv zeta. cbn [article_data doi pmc_id].
  repeat split; try apply next_id_Some; try apply next_id_None.
Qed.

(** X4. An article yields a usable record exactly when its abstract is a
    non-empty string and its first id object of type [doi] has a non-empty
    value.  An article whose first [doi] object is empty is rejected even if
    a later one is not. *)
Theorem usable_article_iff (pmid : string) (article : Article) :
  usable (article_data pmid article) = true
  <-> (exists s, art_abstract article = Some s /\ s <> EmptyString)
      /\ (exists pre i post,
             art_ids article = pre ++ i :: post
             /\ id_type i = "doi" /\ id_value i <> EmptyString
             /\ Forall (fun j => id_type j <> "doi") pre).
Proof.
  rewrite usable_iff. cbn [article_data abstract doi]. split.
  - intros [Ha (x & Hx & Hne)]. split.
    + unfold or_str in Ha. destruct (art_abstract article) as [s|]; [|congruence].
      exists s. split; [reflexivity|]. intros ->. apply Ha. reflexivity.
    + apply next_id_Some in Hx as (pre & i & post & Hids & Hty & Hv & Hpre).
      exists pre, i, post. subst x. auto.
  - intros [(s & Hs & Hne) (pre & i & post & Hids & Hty & Hv & Hpre)]. split.
    + rewrite Hs. unfold or_str. destruct s; [congruence|discriminate].
    + exists (id_value i). split; [|exact Hv].
      apply next_id_Some. exists pre, i, post. auto.
Qed.

(** X5. The record carries the identifier it was fetched for.  Its two
    affiliation fields are [None] exactly when the article has no author;
    otherwise the first is the first author's and the second the last
    author's, so they coincide for a single author. *)
Theorem record_affiliations (pmid : string) (article : Article) :
  let d := article_data pmid article in
  pub_id d = pmid
  /\ (first_author_affiliation d = None <-> art_authors article = [])
  /\ (communicate_author_affiliation d = None <-> art_authors article = [])
  /\ (forall a rest, art_authors article = a :: rest ->
        first_author_affiliation d = Some (str_author a))
  /\ (forall pre z, art_authors article = pre ++ [z] ->
        communicate_author_affiliation d = Some (str_author z))
  /\ (forall a, art_authors article = [a] ->
        first_author_affiliation d = communicate_author_affiliation d).
Proof.
  cbv zeta. cbn [article_data pub_id first_author_affiliation
                 communicate_author_affiliation].
  assert (Hlast : forall pre z,
             List.last (List.map Some (List.map str_author (pre ++ [z]))) None
             = Some (str_author z)).
  { intros pre z. rewrite !List.map_app. cbn [List.map]. apply last_last. }
  split; [reflexivity|]. split; [|split; [|split; [|split]]].
  - destruct (art_authors article); cbn; split; intros H; congruence.
  - destruct (art_authors article) as [|a l] eqn:Hl using rev_ind.
    + cbn. split; reflexivity.
    + rewrite Hlast. split; [discriminate|]. intros H. destruct l; discriminate H.
  - intros a rest ->. reflexivity.
  - intros pre z ->. apply Hlast.
  - intros a ->. reflexivity.
Qed.

(** ** Work units of any size *)

Lemma fetched_is_normalised env pos pmid d :
  fetched env pos pmid = Some d -> exists a, d = article_data pmid a.
Proof.
  unfold fetched, default_retries.
  destruct (fetch_shape (remote env pos) pmid 3) as (n & tail & r & _ & Heq & _ & Hend);
    [lia|].
  rewrite Heq. cbn [snd]. intros ->.
  destruct Hend as [(a & _ & _ & Hr)|(e & _ & _ & _ & Hr)]; [|discriminate Hr].
  injection Hr as ->. eauto.
Qed.

Lemma kept_cases env pos pmid :
  kept env pos pmid = []
  \/ exists d, kept env pos pmid = [d] /\ usable d = true /\ pub_id d = pmid.
Proof.
  unfold kept. destruct (fetched env pos pmid) as [d|] eqn:Hf; [|auto].
  destruct (usable d) eqn:Hu; [|auto]. right. exists d.
  destruct (fetched_is_normalised _ _ _ _ Hf) as [a ->]. auto.
Qed.

Lemma process_batch_loop_spec env batch : forall pos acc,
  exists evs,
    process_batch_loop (remote env) pos batch acc
    = (evs, Returns (acc ++ batch_results env pos batch)).
Proof.
  unfold batch_results.
  induction batch as [|pmid rest IH]; intros pos acc.
  - exists []. cbn. rewrite app_nil_r. reflexivity.
  - cbn [process_batch_loop]. rewrite imap_cons. cbn [concat].
    rewrite Nat.add_0_r.
    destruct (fetch_returns (remote env pos) pmid default_retries) as [v Hv];
    [unfold default_retries; lia|].
    assert (Hkept : kept env pos pmid
                    = match v with
                      | Some d => if usable d then [d] else []
                      | None => []
                      end).
    { unfold kept, fetched. rewrite Hv. reflexivity. }
    destruct (fetch_article_data (remote env pos) pmid default_retries) as [evs r].
    cbn [snd] in Hv. subst r.
    destruct (IH (S pos) (acc ++ kept env pos pmid)) as [evs' Heq].
    exists (evs ++ evs').
    assert (Hacc : match v with
                   | Some d => if usable d then acc ++ [d] else acc
                   | None => acc
                   end = acc ++ kept env pos pmid).
    { rewrite Hkept. destruct v as [d|]; [destruct (usable d)|];
        rewrite ?app_nil_r; reflexivity. }
    rewrite Hacc, Heq, <- app_assoc.
    rewrite (imap_ext (fun j x => kept env (S pos + j) x)
               ((fun j x => kept env (pos + j) x) ∘ S))
      by (intros j x _; cbn; f_equal; lia).
    reflexivity.
Qed.

Lemma batch_results_props env batch : forall pos,
  Forall (fun d => usable d = true) (batch_results env pos batch)
  /\ sublist (List.map pub_id (batch_results env pos batch)) batch.
Proof.
  unfold batch_results. induction batch as [|pmid rest IH]; intros pos.
  - split; constructor.
  - rewrite imap_cons. cbn [concat]. rewrite Nat.add_0_r.
    destruct (IH (S pos)) as [Hu Hs].
    rewrite (imap_ext ((fun j x => kept env (pos + j) x) ∘ S)
               (fun j x => kept env (S pos + j) x))
      by (intros j x _; cbn; f_equal; lia).
    destruct (kept_cases env pos pmid) as [->|(d & -> & Hd & Hid)]; cbn [app List.map].
    + split; [exact Hu|]. apply sublist_cons. exact Hs.
    + split; [constructor; assumption|]. rewrite Hid. apply sublist_skip. exact Hs.
Qed.

Lemma process_batch_returns env pos batch :
  exists evs,
    process_batch (remote env) pos batch
    = (evs, Returns (batch_results env pos batch, batch)).
Proof.
  destruct (process_batch_loop_spec env batch pos []) as [evs Heq].
  exists evs. unfold process_batch. rewrite Heq. reflexivity.
Qed.

(** X6. For a batch of any size, [process_batch] never raises and hands back
    the batch it was given.  Its results are the usable records of the batch
    in batch order, at most one per identifier: every result has a non-empty
    abstract and DOI, and the identifiers of the results are a subsequence of
    the batch. *)
Theorem process_batch_results (env : Env) (pos : nat) (batch : list string) :
  exists evs,
    process_batch (remote env) pos batch
    = (evs, Returns (batch_results env pos batch, batch))
    /\ Forall (fun d => usable d = true) (batch_results env pos batch)
    /\ sublist (List.map pub_id (batch_results env pos batch)) batch
    /\ (length (batch_results env pos batch) <= length batch)%nat.
Proof.
  destruct (process_batch_returns env pos batch) as [evs Heq].
  destruct (batch_results_props env batch pos) as [Hu Hs].
  exists evs. split; [exact Heq|]. split; [exact Hu|]. split; [exact Hs|].
  apply sublist_length in Hs. rewrite length_map in Hs. exact Hs.
Qed.

(** ** The fetch phase: what is stored, logged, lost or left alone *)

(** The identifiers a unit accounts for: those of its rows, and all of its
    own when it has no row. *)
Lemma flat_map_split_perm {A B} (f g : A -> list B) (l : list A) :
  Permutation (flat_map (fun x => f x ++ g x) l) (flat_map f l ++ flat_map g l).
Proof.
  induction l as [|x l IH]; [constructor|].
  cbn [flat_map]. rewrite IH, <- !app_assoc.
  apply Permutation_app_head. rewrite !app_assoc.
  apply Permutation_app_tail. apply Permutation_app_comm.
Qed.

Lemma stored_ids_flat_map units :
  List.map pub_id (stored_of units)
  = flat_map (fun u => List.map pub_id (fst u)) units.
Proof.
  unfold stored_of. induction units as [|u units IH]; [reflexivity|].
  cbn [flat_map]. rewrite List.map_app, IH. reflexivity.
Qed.

Lemma unit_ids_accounted (k : nat -> string -> list ArticleData) (l : list string) :
  (forall i x, k i x = [] \/ exists d, k i x = [d] /\ pub_id d = x) ->
  flat_map (fun u => List.map pub_id (fst u)
                       ++ match fst u with [] => snd u | _ :: _ => [] end)
           (imap (fun i x => (k i x, [x])) l)
  = l.
Proof.
  revert k. induction l as [|x l IH]; intros k Hk; [reflexivity|].
  rewrite imap_cons. cbn [flat_map fst snd].
  change (imap ((fun i x => (k i x, [x])) ∘ S) l)
    with (imap (fun i x => (k (S i) x, [x])) l).
  rewrite (IH (fun i => k (S i)) (fun i => Hk (S i))).
  destruct (Hk O x) as [->|(d & -> & Hd)]; cbn; [reflexivity|]. rewrite Hd. reflexivity.
Qed.

Lemma stored_and_failed_perm env order pm_ids prefix w failed :
  Permutation order (seq 0 (length pm_ids)) ->
  fst (fetch_phase env order pm_ids prefix w) = Returns failed ->
  Permutation
    (List.map pub_id (dataset prefix (snd (fetch_phase env order pm_ids prefix w)))
       ++ failed)
    pm_ids.
Proof.
  intros Hperm Hrun.
  rewrite (dataset_after_fetch _ _ _ _ _ _ Hrun).
  destruct (fetch_phase_spec _ _ _ _ _ _ Hrun) as (-> & _ & _).
  pose proof (completed_units_perm env _ _ Hperm) as Hunits.
  rewrite stored_ids_flat_map. unfold failed_of.
  rewrite <- flat_map_split_perm. rewrite Hunits.
  unfold unit_outcomes. rewrite (unit_ids_accounted (kept env)); [reflexivity|].
  intros i x. destruct (kept_cases env i x) as [->|(d & -> & _ & Hd)]; eauto.
Qed.

(** X7. With units of one identifier, when the fetch phase returns no
    identifier is lost, invented or counted twice: the identifiers of the
    rows of the Dataset together with [failed_ids] are a rearrangement of
    the input list, duplicates included. *)
Theorem identifiers_accounted (env : Env) (order : list nat) (pm_ids : list string)
    (prefix : string) (w : World) (failed : list string) :
  Permutation order (seq 0 (length pm_ids)) ->
  fst (fetch_phase env order pm_ids prefix w) = Returns failed ->
  Permutation
    (List.map pub_id (dataset prefix (snd (fetch_phase env order pm_ids prefix w)))
       ++ failed)
    pm_ids.
Proof. exact (stored_and_failed_perm env order pm_ids prefix w failed). Qed.

Lemma identifiers_accounted_witness :
  Permutation
    (List.map pub_id
       (dataset EmptyString
          (snd (fetch_phase scenario_env [2; 0; 1]%nat scenario_ids EmptyString
                  empty_world)))
       ++ ["A3"; "A2"])
    scenario_ids.
Proof.
  apply (identifiers_accounted scenario_env [2; 0; 1]%nat scenario_ids EmptyString
           empty_world ["A3"; "A2"]).
  - exact order_201.
  - vm_compute. reflexivity.
Defined.

Lemma consume_raise env jf failed res b w e w' :
  consume env jf failed (Returns (res, b)) w = (Raises e, w') ->
  res <> []
  /\ open_error env (opens w) ModeA jf = Some e
  /\ files w' = files w /\ stdout w' = stdout w.
Proof.
  unfold consume, lift. unfold bind at 1.
  destruct res as [|d res]; [discriminate|].
  unfold bind at 1. unfold py_open.
  destruct (open_error env (opens w) ModeA jf) as [e'|].
  - intros [= <- <-]. auto.
  - intros Hrun. exfalso. revert Hrun.
    set (w1 := match files w !! jf with
               | Some _ => _
               | None => _
               end).
    assert (Hw1 : exists w2, w1 = (Returns tt, w2))
      by (subst w1; destruct (files w !! jf); eauto).
    destruct Hw1 as [w2 ->]. unfold bind.
    destruct (write_all_spec jf (List.map JsonLine (d :: res)) w2) as (Hr & _).
    destruct (write_all jf (List.map JsonLine (d :: res)) w2) as [r w3].
    cbn [fst] in Hr. subst r. discriminate.
Qed.

Lemma consume_all_raise env jf units : forall failed w c e w',
  files w !! jf = Some c ->
  consume_all env jf failed (List.map Returns units) w = (Raises e, w') ->
  exists k u,
    units !! k = Some u /\ fst u <> []
    /\ files w' !! jf = Some (c ++ List.map JsonLine (stored_of (take k units)))
    /\ stdout w' = stdout w.
Proof.
  induction units as [|[res b] units IH]; intros failed w c e w' Hc.
  - discriminate.
  - cbn [List.map consume_all]. unfold bind.
    destruct (consume env jf failed (Returns (res, b)) w) as [[f1|e1] w1] eqn:Hstep.
    + destruct (consume_spec _ _ _ _ _ _ _ _ _ Hc Hstep) as (_ & Hfiles & Hout).
      intros Hrest.
      destruct (IH _ _ _ _ _ Hfiles Hrest) as (k & u & Hk & Hu & Hfiles' & Hout').
      exists (S k), u. split; [exact Hk|]. split; [exact Hu|].
      split; [|congruence].
      rewrite Hfiles'. unfold stored_of. cbn [take flat_map fst].
      rewrite List.map_app, <- app_assoc. reflexivity.
    + intros [= <- <-].
      destruct (consume_raise _ _ _ _ _ _ _ _ Hstep) as (Hres & _ & Hfiles & Hout).
      exists O, (res, b). split; [reflexivity|]. split; [exact Hres|].
      split; [|exact Hout].
      rewrite Hfiles, Hc. cbn. rewrite app_nil_r. reflexivity.
Qed.

(** X8. An error while the fetch phase opens the Dataset file is not caught:
    the phase raises it.  If the first [open] failed nothing was written;
    otherwise the file holds the rows of the units consumed before the
    failing one, in completion order, none of them lost, and the failing
    unit is one that had rows to append.  The main thread has printed
    nothing. *)
Theorem fetch_phase_crash_keeps_rows (env : Env) (order : list nat)
    (pm_ids : list string) (prefix : string) (w : World) (e : string) :
  fst (fetch_phase env order pm_ids prefix w) = Raises e ->
  let w' := snd (fetch_phase env order pm_ids prefix w) in
  let units := as_completed order (unit_outcomes env pm_ids) in
  stdout w' = stdout w
  /\ ((open_error env (opens w) ModeW (prefix +:+ "id_information.json") = Some e
       /\ files w' = files w)
      \/ exists k u,
           units !! k = Some u /\ fst u <> []
           /\ dataset prefix w' = stored_of (take k units)).
Proof.
  destruct (fetch_phase env order pm_ids prefix w) as [r w'] eqn:Hrun.
  cbn [fst snd]. intros ->. cbv zeta. revert Hrun.
  unfold fetch_phase. rewrite submit_all_unit, as_completed_map.
  set (jf := prefix +:+ "id_information.json").
  set (units := as_completed order (unit_outcomes env pm_ids)).
  unfold bind at 1. unfold py_open.
  destruct (open_error env (opens w) ModeW jf) as [e0|].
  - intros [= <- <-]. cbn. auto.
  - unfold bind at 1. cbn [write files stdout opens]. intros Hrest.
    apply consume_all_raise with (c := [Raw EmptyString]) in Hrest.
    + destruct Hrest as (k & u & Hk & Hu & Hfiles & Hout).
      split; [exact Hout|]. right. exists k, u. split; [exact Hk|].
      split; [exact Hu|]. unfold dataset. fold jf. rewrite Hfiles.
      cbn. apply rows_of_json_lines.
    + cbn [files]. rewrite lookup_insert_eq, lookup_insert_eq. reflexivity.
Qed.

Lemma fetch_phase_crash_keeps_rows_witness :
  let env := open_fails_at 2 scenario_remote in
  let ids := ["A1"; "A1"; "A3"] in
  let w' := snd (fetch_phase env [0; 1; 2]%nat ids EmptyString empty_world) in
  let units := as_completed [0; 1; 2]%nat (unit_outcomes env ids) in
  stdout w' = stdout empty_world
  /\ ((open_error env (opens empty_world) ModeW
         (EmptyString +:+ "id_information.json")
       = Some "[Errno 28] No space left on device"
       /\ files w' = files empty_world)
      \/ exists k u,
           units !! k = Some u /\ fst u <> []
           /\ dataset EmptyString w' = stored_of (take k units)).
Proof.
  apply (fetch_phase_crash_keeps_rows (open_fails_at 2 scenario_remote)
           [0; 1; 2]%nat ["A1"; "A1"; "A3"] EmptyString empty_world
           "[Errno 28] No space left on device").
  vm_compute. reflexivity.
Defined.

Example crash_after_one_unit :
  let env := open_fails_at 2 scenario_remote in
  let run := fetch_phase env [0; 1; 2]%nat ["A1"; "A1"; "A3"] EmptyString
               empty_world in
  fst run = Raises "[Errno 28] No space left on device"
  /\ dataset EmptyString (snd run) = [article_data "A1" sample_article].
Proof. cbv zeta. split; vm_compute; reflexivity. Qed.

Lemma quiet_consume_all env jf completed : forall failed,
  quiet (consume_all env jf failed completed).
Proof.
  induction completed as [|future rest IH]; intros failed; [apply quiet_ret|].
  cbn [consume_all]. apply quiet_bind; [|intros f; apply IH].
  unfold consume. apply quiet_bind; [apply quiet_lift|]. intros [res b].
  destruct res; [apply quiet_ret|].
  apply quiet_bind; [apply quiet_py_open|intros _].
  apply quiet_bind; [apply quiet_write_all|intros _; apply quiet_ret].
Qed.

Lemma quiet_fetch_phase env order pm_ids prefix :
  quiet (fetch_phase env order pm_ids prefix).
Proof.
  unfold fetch_phase.
  apply quiet_bind; [apply quiet_py_open|intros _].
  apply quiet_bind; [apply quiet_write|intros _].
  apply quiet_consume_all.
Qed.

(** X9. The fetch phase writes to one file only: whether it returns or
    raises, every path other than the Dataset file holds what it held
    before, and the main thread has printed nothing. *)
Theorem fetch_phase_touches_only_dataset (env : Env) (order : list nat)
    (pm_ids : list string) (prefix : string) (w : World) (p : string) :
  p <> prefix +:+ "id_information.json" ->
  files (snd (fetch_phase env order pm_ids prefix w)) !! p = files w !! p
  /\ stdout (snd (fetch_phase env order pm_ids prefix w)) = stdout w.
Proof.
  intros Hne. split.
  - apply keeps_fetch_phase. exact Hne.
  - apply quiet_fetch_phase.
Qed.

Lemma fetch_phase_touches_only_dataset_witness :
  files (snd (fetch_phase scenario_env [0; 1; 2]%nat scenario_ids "out_" empty_world))
    !! "out_failed_ids.txt"
  = files empty_world !! "out_failed_ids.txt"
  /\ stdout (snd (fetch_phase scenario_env [0; 1; 2]%nat scenario_ids "out_"
                    empty_world))
     = stdout empty_world.
Proof.
  apply (fetch_phase_touches_only_dataset scenario_env [0; 1; 2]%nat scenario_ids
           "out_" empty_world "out_failed_ids.txt").
  discriminate.
Defined.

(** X10. A completed unit of any size is stored or logged as a whole.  If it
    has at least one usable record, its records are appended to the Dataset
    file in batch order and [failed_ids] is left as it is, even when other
    identifiers of the unit failed or were filtered out.  If it has none,
    the file is left as it is and every identifier of the unit is added to
    [failed_ids]. *)
Theorem unit_stored_or_logged (env : Env) (jf : string) (failed : list string)
    (pos : nat) (batch : list string) (w w' : World) (c : list chunk)
    (f : list string) :
  files w !! jf = Some c ->
  consume env jf failed (snd (process_batch (remote env) pos batch)) w
  = (Returns f, w') ->
  let results := batch_results env pos batch in
  files w' !! jf = Some (c ++ List.map JsonLine results)
  /\ (results <> [] -> f = failed)
  /\ (results = [] -> f = failed ++ batch).
Proof.
  intros Hc Hrun. cbv zeta.
  destruct (process_batch_returns env pos batch) as [evs Heq].
  rewrite Heq in Hrun. cbn [snd] in Hrun.
  destruct (consume_spec _ _ _ _ _ _ _ _ _ Hc Hrun) as (-> & Hfiles & _).
  split; [exact Hfiles|].
  destruct (batch_results env pos batch); split; intros H; try congruence.
  rewrite app_nil_r. reflexivity.
Qed.

Lemma unit_stored_or_logged_witness :
  let env := scenario_env in
  let w := snd (py_open env ModeW "id_information.json" empty_world) in
  let run := consume env "id_information.json" [] 
               (snd (process_batch (remote env) 0 ["A1"; "A3"])) w in
  let results := batch_results env 0 ["A1"; "A3"] in
  files (snd run) !! "id_information.json" = Some ([] ++ List.map JsonLine results)
  /\ (results <> [] -> [] = @nil string)
  /\ (results = [] -> [] = [] ++ ["A1"; "A3"]).
Proof.
  apply (unit_stored_or_logged scenario_env "id_information.json" [] 0
           ["A1"; "A3"]
           (snd (py_open scenario_env ModeW "id_information.json" empty_world))
           (snd (consume scenario_env "id_information.json" []
                   (snd (process_batch (remote scenario_env) 0 ["A1"; "A3"]))
                   (snd (py_open scenario_env ModeW "id_information.json"
                           empty_world))))
           [] []).
  - vm_compute. reflexivity.
  - vm_compute. reflexivity.
Defined.

(** A unit of two identifiers of which the second never answers: the first
    is stored and the second appears nowhere. *)
Example failure_inside_a_unit_is_not_logged :
  let env := scenario_env in
  let w := snd (py_open env ModeW "id_information.json" empty_world) in
  let run := consume env "id_information.json" []
               (snd (process_batch (remote env) 0 ["A1"; "A3"])) w in
  fst run = Returns []
  /\ rows_of (default [] (files (snd run) !! "id_information.json"))
     = [article_data "A1" sample_article].
Proof. cbv zeta. split; vm_compute; reflexivity. Qed.

(** ** Writing and reading back files *)

Lemma bind_returns {A B} (m : IO A) (k : A -> IO B) w b w' :
  bind m k w = (Returns b, w') ->
  exists a w1, m w = (Returns a, w1) /\ k a w1 = (Returns b, w').
Proof.
  unfold bind. destruct (m w) as [[a|e] w1]; [eauto|discriminate].
Qed.

Lemma py_open_write_returns env path w w' :
  py_open env ModeW path w = (Returns tt, w') -> w' = written w path [].
Proof.
  unfold py_open. destruct (open_error env (opens w) ModeW path); [discriminate|].
  intros [= <-]. reflexivity.
Qed.

Lemma py_open_write_raises env path w e w' :
  py_open env ModeW path w = (Raises e, w') ->
  open_error env (opens w) ModeW path = Some e /\ files w' = files w.
Proof.
  unfold py_open. destruct (open_error env (opens w) ModeW path); [|discriminate].
  intros [= <- <-]. auto.
Qed.

Lemma write_all_closed path cs : forall w c,
  files w !! path = Some c ->
  write_all path cs w
  = (Returns tt,
     {| files := <[path := c ++ cs]> (files w);
        stdout := stdout w; opens := opens w |}).
Proof.
  induction cs as [|x cs IH]; intros w c Hc.
  - cbn. rewrite app_nil_r, (insert_id _ _ _ Hc). destruct w; reflexivity.
  - cbn [write_all]. unfold bind. cbn [write]. rewrite Hc. cbn [default].
    erewrite IH by (cbn [files]; apply lookup_insert_eq).
    cbn [files stdout opens]. rewrite insert_insert_eq, <- app_assoc. reflexivity.
Qed.

Lemma write_text_returns env path text w w' :
  write_text env path text w = (Returns tt, w') -> w' = written w path [Raw text].
Proof.
  unfold write_text. intros H.
  apply bind_returns in H as ([] & w1 & Hopen & Hw).
  apply py_open_write_returns in Hopen as ->.
  cbn in Hw. injection Hw as <-. unfold written. cbn.
  rewrite lookup_insert_eq, insert_insert_eq. reflexivity.
Qed.

Lemma save_json_lines_returns env path l w w' :
  save_json_lines env path l w = (Returns tt, w') ->
  w' = written w path (List.map JsonLine l).
Proof.
  unfold save_json_lines. intros H.
  apply bind_returns in H as ([] & w1 & Hopen & Hw).
  apply py_open_write_returns in Hopen as ->.
  rewrite (write_all_closed _ _ _ []) in Hw
    by (cbn [written files]; apply lookup_insert_eq).
  injection Hw as <-. unfold written. cbn.
  rewrite insert_insert_eq. reflexivity.
Qed.

Lemma write_html_returns env path md w w' :
  write_html env path md w = (Returns tt, w') ->
  exists html,
    markdown_markdown env md = Returns html
    /\ w' = written w path [Raw (html_page html)].
Proof.
  unfold write_html. intros H.
  apply bind_returns in H as ([] & w1 & Hopen & H).
  apply py_open_write_returns in Hopen as ->.
  apply bind_returns in H as (page & w2 & Hpage & Hw).
  unfold md_to_html in Hpage.
  apply bind_returns in Hpage as (html & w3 & Hmd & Hret).
  unfold lift in Hmd. injection Hmd as Hmd <-.
  cbn [ret] in Hret. injection Hret as <- <-.
  exists html. split; [exact Hmd|].
  cbn in Hw. injection Hw as <-. unfold written. cbn.
  rewrite lookup_insert_eq, insert_insert_eq. reflexivity.
Qed.

Lemma loads_lines_rows loads cs :
  json_lines_file cs -> loads_lines loads cs = Returns (rows_of cs).
Proof.
  induction 1 as [|c cs Hc _ IH]; [reflexivity|].
  cbn [loads_lines]. rewrite IH.
  destruct c as [s|row]; [rewrite Hc|]; reflexivity.
Qed.

Lemma json_lines_file_rows l : json_lines_file (List.map JsonLine l).
Proof. induction l; constructor; auto. Qed.

(** X11. [save_json_lines] replaces the file: when it returns, reading the
    file back line by line as [generate_outputs] reads the Dataset gives
    exactly the rows that were saved, in order, whatever the file held
    before.  When it raises, the [open] failed and the file is as it was. *)
Theorem save_json_lines_round_trip (env : Env) (filepath : string)
    (data_list : list ArticleData) (w : World) :
  let run := save_json_lines env filepath data_list w in
  match fst run with
  | Returns _ =>
      loads_lines (json_loads env) (default [] (files (snd run) !! filepath))
      = Returns data_list
  | Raises e =>
      open_error env (opens w) ModeW filepath = Some e
      /\ files (snd run) = files w
  end.
Proof.
  cbv zeta. destruct (save_json_lines env filepath data_list w) as [r w'] eqn:Hrun.
  cbn [fst snd]. destruct r as [[]|e].
  - apply save_json_lines_returns in Hrun as ->.
    cbn [written files]. rewrite lookup_insert_eq.
    change (default [] (Some (List.map JsonLine data_list)))
      with (List.map JsonLine data_list).
    rewrite loads_lines_rows by apply json_lines_file_rows.
    f_equal. apply rows_of_json_lines.
  - revert Hrun. unfold save_json_lines, bind.
    destruct (py_open env ModeW filepath w) as [[[]|e0] w1] eqn:Hopen.
    + apply py_open_write_returns in Hopen as ->.
      rewrite (write_all_closed _ _ _ [])
        by (cbn [written files]; apply lookup_insert_eq).
      discriminate.
    + intros [= <- <-]. apply py_open_write_raises in Hopen. exact Hopen.
Qed.

(** ** Classifier/Exporter: the files of a completed export *)

Lemma py_open_read_returns env path w w' :
  py_open env ModeR path w = (Returns tt, w') ->
  is_Some (files w !! path)
  /\ w' = {| files := files w; stdout := stdout w; opens := S (opens w) |}.
Proof.
  unfold py_open. destruct (open_error env (opens w) ModeR path); [discriminate|].
  destruct (files w !! path); [|discriminate]. intros [= <-]. eauto.
Qed.

Ltac distinct_paths := first [discriminate | by_length].

Ltac lookup_written :=
  cbn [written files stdout opens];
  repeat (rewrite lookup_insert_ne by distinct_paths);
  rewrite ?lookup_insert_eq; try reflexivity.

(** The export of [articles], step by step, when every step returns. *)
Lemma generate_outputs_returns env prefix select_link w w' content :
  files w !! (prefix +:+ "id_information.json") = Some content ->
  json_lines_file content ->
  generate_outputs env prefix select_link w = (Returns tt, w') ->
  let articles := rows_of content in
  let linked := List.filter matched articles in
  let unlinked := List.filter (fun a => negb (matched a)) articles in
  exists html w4,
    markdown_markdown env (render_all articles) = Returns html
    /\ w4 = written
              (written
                 (written
                    (written
                       {| files := files w; stdout := stdout w;
                          opens := S (opens w) |}
                       "pmcids.txt" [Raw (join nl (omap listed_pmc articles))])
                    "no_pmcids.json"
                    (List.map JsonLine
                       (List.filter (fun a => negb (has_pmc a)) articles)))
                 (prefix +:+ "id_information.md") [Raw (render_all articles)])
              (prefix +:+ "id_information.html") [Raw (html_page html)]
    /\ stdout w'
       = stdout w ++ ["Generated output files with "
                      +:+ str_of_nat (length articles) +:+ " articles"]
    /\ if select_link then
         exists html1 html2,
           markdown_markdown env (render_all linked) = Returns html1
           /\ markdown_markdown env (render_all unlinked) = Returns html2
           /\ files w'
              = files
                  (written
                     (written
                        (written
                           (written
                              (written
                                 (written w4
                                    (prefix +:+ "link_id_information.json")
                                    (List.map JsonLine linked))
                                 (prefix +:+ "link_id_information.md")
                                 [Raw (render_all linked)])
                              (prefix +:+ "link_id_information.html")
                              [Raw (html_page html1)])
                           (prefix +:+ "no_link_id_information.json")
                           (List.map JsonLine unlinked))
                        (prefix +:+ "no_link_id_information.md")
                        [Raw (render_all unlinked)])
                     (prefix +:+ "no_link_id_information.html")
                     [Raw (html_page html2)])
       else files w' = files w4.
Proof.
  intros Hc Hjson Hrun. cbv zeta. unfold generate_outputs in Hrun.
  apply bind_returns in Hrun as ([] & w0 & Hopen & Hrun).
  apply py_open_read_returns in Hopen as [_ ->].
  apply bind_returns in Hrun as (content' & w0 & Hread & Hrun).
  unfold read in Hread. cbn [files] in Hread. rewrite Hc in Hread.
  injection Hread as <- <-.
  apply bind_returns in Hrun as (articles & w0 & Hloads & Hrun).
  unfold lift in Hloads. cbn [default] in Hloads.
  rewrite (loads_lines_rows _ _ Hjson) in Hloads. injection Hloads as <- <-.
  rewrite classify_views in Hrun.
  cbn [pmcids no_pmcids all_md link_articles no_link_articles] in Hrun.
  fold (render_all (rows_of content)) in Hrun.
  apply bind_returns in Hrun as ([] & w1 & H1 & Hrun).
  apply write_text_returns in H1 as ->.
  apply bind_returns in Hrun as ([] & w2 & H2 & Hrun).
  apply save_json_lines_returns in H2 as ->.
  apply bind_returns in Hrun as ([] & w3 & H3 & Hrun).
  apply write_text_returns in H3 as ->.
  apply bind_returns in Hrun as ([] & w4 & H4 & Hrun).
  apply write_html_returns in H4 as (html & Hhtml & ->).
  apply bind_returns in Hrun as ([] & w5 & Hlink & Hprint).
  unfold print in Hprint. injection Hprint as <-. cbn [stdout files].
  exists html. eexists. split; [exact Hhtml|]. split; [reflexivity|].
  destruct select_link.
  - apply bind_returns in Hlink as ([] & w6 & H6 & Hlink).
    apply save_json_lines_returns in H6 as ->.
    apply bind_returns in Hlink as ([] & w7 & H7 & Hlink).
    apply write_text_returns in H7 as ->.
    apply bind_returns in Hlink as ([] & w8 & H8 & Hlink).
    apply write_html_returns in H8 as (html1 & Hhtml1 & ->).
    apply bind_returns in Hlink as ([] & w9 & H9 & Hlink).
    apply save_json_lines_returns in H9 as ->.
    apply bind_returns in Hlink as ([] & w10 & H10 & Hlink).
    apply write_text_returns in H10 as ->.
    apply write_html_returns in Hlink as (html2 & Hhtml2 & ->).
    split; [reflexivity|]. exists html1, html2. auto.
  - cbn [ret] in Hlink. injection Hlink as <-. split; reflexivity.
Qed.

Lemma export_unconditional_files env prefix select_link w content :
  files w !! (prefix +:+ "id_information.json") = Some content ->
  json_lines_file content ->
  fst (generate_outputs env prefix select_link w) = Returns tt ->
  let articles := rows_of content in
  let w' := snd (generate_outputs env prefix select_link w) in
  files w' !! "pmcids.txt" = Some [Raw (join nl (omap listed_pmc articles))]
  /\ files w' !! "no_pmcids.json"
     = Some (List.map JsonLine (List.filter (fun a => negb (has_pmc a)) articles))
  /\ files w' !! (prefix +:+ "id_information.md") = Some [Raw (render_all articles)]
  /\ (exists html,
         markdown_markdown env (render_all articles) = Returns html
         /\ files w' !! (prefix +:+ "id_information.html")
            = Some [Raw (html_page html)])
  /\ stdout w'
     = stdout w ++ ["Generated output files with "
                    +:+ str_of_nat (length articles) +:+ " articles"].
Proof.
  intros Hc Hjson Hret. cbv zeta.
  destruct (generate_outputs env prefix select_link w) as [r w'] eqn:Hrun.
  cbn [fst snd] in *. subst r.
  destruct (generate_outputs_returns _ _ _ _ _ _ Hc Hjson Hrun)
    as (html & w4 & Hhtml & -> & Hout & Hfiles).
  assert (Hsame : forall p,
             p <> prefix +:+ "link_id_information.json" ->
             p <> prefix +:+ "link_id_information.md" ->
             p <> prefix +:+ "link_id_information.html" ->
             p <> prefix +:+ "no_link_id_information.json" ->
             p <> prefix +:+ "no_link_id_information.md" ->
             p <> prefix +:+ "no_link_id_information.html" ->
             files w' !! p
             = files
                 (written
                    (written
                       (written
                          (written
                             {| files := files w; stdout := stdout w;
                                opens := S (opens w) |}
                             "pmcids.txt"
                             [Raw (join nl (omap listed_pmc (rows_of content)))])
                          "no_pmcids.json"
                          (List.map JsonLine
                             (List.filter (fun a => negb (has_pmc a))
                                (rows_of content))))
                       (prefix +:+ "id_information.md")
                       [Raw (render_all (rows_of content))])
                    (prefix +:+ "id_information.html") [Raw (html_page html)])
               !! p).
  { intros p H1 H2 H3 H4 H5 H6. destruct select_link.
    - destruct Hfiles as (html1 & html2 & _ & _ & ->).
      cbn [written files]. rewrite !lookup_insert_ne by congruence. reflexivity.
    - rewrite Hfiles. reflexivity. }
  repeat split.
  - rewrite Hsame by distinct_paths. lookup_written.
  - rewrite Hsame by distinct_paths. lookup_written.
  - rewrite Hsame by distinct_paths. lookup_written.
  - exists html. split; [exact Hhtml|].
    rewrite Hsame by distinct_paths. lookup_written.
  - exact Hout.
Qed.

(** X12. When [generate_outputs] returns on a Dataset file of JSON lines, its
    three unconditional outputs are functions of the rows alone:
    [pmcids.txt] holds the non-empty secondary-repository IDs joined by
    newlines, [no_pmcids.json] the rows that lack one, and the document of
    all records one rendered block per row, all in Dataset order; the HTML
    file is the page around [markdown.markdown] of that document; and the
    one line printed reports the number of rows. *)
Theorem export_files_of_dataset (env : Env) (prefix : string) (select_link : bool)
    (w : World) (content : list chunk) :
  files w !! (prefix +:+ "id_information.json") = Some content ->
  json_lines_file content ->
  fst (generate_outputs env prefix select_link w) = Returns tt ->
  let articles := rows_of content in
  let w' := snd (generate_outputs env prefix select_link w) in
  files w' !! "pmcids.txt" = Some [Raw (join nl (omap listed_pmc articles))]
  /\ files w' !! "no_pmcids.json"
     = Some (List.map JsonLine (List.filter (fun a => negb (has_pmc a)) articles))
  /\ files w' !! (prefix +:+ "id_information.md") = Some [Raw (render_all articles)]
  /\ (exists html,
         markdown_markdown env (render_all articles) = Returns html
         /\ files w' !! (prefix +:+ "id_information.html")
            = Some [Raw (html_page html)])
  /\ stdout w'
     = stdout w ++ ["Generated output files with "
                    +:+ str_of_nat (length articles) +:+ " articles"].
Proof. exact (export_unconditional_files env prefix select_link w content). Qed.

Lemma scenario_content_is_json_lines : json_lines_file scenario_content.
Proof. repeat constructor. Defined.

Lemma export_files_of_dataset_witness :
  let articles := rows_of scenario_content in
  let w' := snd (generate_outputs scenario_env EmptyString true scenario_fetched) in
  files w' !! "pmcids.txt" = Some [Raw (join nl (omap listed_pmc articles))]
  /\ files w' !! "no_pmcids.json"
     = Some (List.map JsonLine (List.filter (fun a => negb (has_pmc a)) articles))
  /\ files w' !! (EmptyString +:+ "id_information.md")
     = Some [Raw (render_all articles)]
  /\ (exists html,
         markdown_markdown scenario_env (render_all articles) = Returns html
         /\ files w' !! (EmptyString +:+ "id_information.html")
            = Some [Raw (html_page html)])
  /\ stdout w'
     = stdout scenario_fetched
         ++ ["Generated output files with "
             +:+ str_of_nat (length articles) +:+ " articles"].
Proof.
  apply (export_files_of_dataset scenario_env EmptyString true scenario_fetched
           scenario_content).
  - vm_compute. reflexivity.
  - exact scenario_content_is_json_lines.
  - vm_compute. reflexivity.
Defined.

(** X13. With [select_link=True], a returning export writes the matched and
    the unmatched rows to their two JSON files, which together are a
    rearrangement of the Dataset and share no row, and each of the two
    markdown documents is the rendering of exactly the rows of its JSON
    counterpart, in the same order. *)
Theorem export_classified_files (env : Env) (prefix : string) (w : World)
    (content : list chunk) :
  files w !! (prefix +:+ "id_information.json") = Some content ->
  json_lines_file content ->
  fst (generate_outputs env prefix true w) = Returns tt ->
  let articles := rows_of content in
  let w' := snd (generate_outputs env prefix true w) in
  let rows p := rows_of (default [] (files w' !! (prefix +:+ p))) in
  rows "link_id_information.json" = List.filter matched articles
  /\ rows "no_link_id_information.json"
     = List.filter (fun a => negb (matched a)) articles
  /\ Permutation (rows "link_id_information.json"
                    ++ rows "no_link_id_information.json") articles
  /\ (forall r, ~ (In r (rows "link_id_information.json")
                   /\ In r (rows "no_link_id_information.json")))
  /\ files w' !! (prefix +:+ "link_id_information.md")
     = Some [Raw (render_all (rows "link_id_information.json"))]
  /\ files w' !! (prefix +:+ "no_link_id_information.md")
     = Some [Raw (render_all (rows "no_link_id_information.json"))].
Proof.
  intros Hc Hjson Hret. cbv beta zeta.
  destruct (generate_outputs env prefix true w) as [r w'] eqn:Hrun.
  cbn [fst snd] in *. subst r.
  destruct (generate_outputs_returns _ _ _ _ _ _ Hc Hjson Hrun)
    as (html & w4 & _ & _ & _ & (html1 & html2 & _ & _ & Hfiles)).
  assert (Hl : files w' !! (prefix +:+ "link_id_information.json")
               = Some (List.map JsonLine (List.filter matched (rows_of content))))
    by (rewrite Hfiles; lookup_written).
  assert (Hn : files w' !! (prefix +:+ "no_link_id_information.json")
               = Some (List.map JsonLine
                         (List.filter (fun a => negb (matched a)) (rows_of content))))
    by (rewrite Hfiles; lookup_written).
  assert (Hlm : files w' !! (prefix +:+ "link_id_information.md")
                = Some [Raw (render_all (List.filter matched (rows_of content)))])
    by (rewrite Hfiles; lookup_written).
  assert (Hnm : files w' !! (prefix +:+ "no_link_id_information.md")
                = Some [Raw (render_all
                               (List.filter (fun a => negb (matched a))
                                  (rows_of content)))])
    by (rewrite Hfiles; lookup_written).
  rewrite Hl, Hn, Hlm, Hnm. cbn [default from_option id].
  rewrite !rows_of_json_lines.
  split; [reflexivity|]. split; [reflexivity|].
  split; [apply filter_split_perm|]. split; [|split; reflexivity].
  intros r [H1 H2]. apply filter_In in H1 as [_ H1], H2 as [_ H2].
  rewrite H1 in H2. discriminate H2.
Qed.

Lemma export_classified_files_witness :
  let articles := rows_of scenario_content in
  let w' := snd (generate_outputs scenario_env EmptyString true scenario_fetched) in
  let rows p := rows_of (default [] (files w' !! (EmptyString +:+ p))) in
  rows "link_id_information.json" = List.filter matched articles
  /\ rows "no_link_id_information.json"
     = List.filter (fun a => negb (matched a)) articles
  /\ Permutation (rows "link_id_information.json"
                    ++ rows "no_link_id_information.json") articles
  /\ (forall r, ~ (In r (rows "link_id_information.json")
                   /\ In r (rows "no_link_id_information.json")))
  /\ files w' !! (EmptyString +:+ "link_id_information.md")
     = Some [Raw (render_all (rows "link_id_information.json"))]
  /\ files w' !! (EmptyString +:+ "no_link_id_information.md")
     = Some [Raw (render_all (rows "no_link_id_information.json"))].
Proof.
  apply (export_classified_files scenario_env EmptyString scenario_fetched
           scenario_content).
  - vm_compute. reflexivity.
  - exact scenario_content_is_json_lines.
  - vm_compute. reflexivity.
Defined.

Lemma keeps_generate_outputs_unselected env prefix p :
  p <> "pmcids.txt" -> p <> "no_pmcids.json" ->
  p <> prefix +:+ "id_information.md" ->
  p <> prefix +:+ "id_information.html" ->
  keeps p (generate_outputs env prefix false).
Proof.
  intros. unfold generate_outputs.
  apply keeps_bind; [apply keeps_py_open_read|intros _].
  apply keeps_bind; [apply keeps_read|intros content].
  apply keeps_bind; [apply keeps_lift|intros articles].
  apply keeps_bind; [apply keeps_write_text; assumption|intros _].
  apply keeps_bind; [apply keeps_save_json_lines; assumption|intros _].
  apply keeps_bind; [apply keeps_write_text; assumption|intros _].
  apply keeps_bind; [apply keeps_write_html; assumption|intros _].
  apply keeps_bind; [apply keeps_ret|intros _; apply keeps_print].
Qed.

(** X14. With [select_link=False] the export leaves the six files of the
    classification alone, whether it returns or raises: whatever an earlier
    export with selection wrote there stays as it is. *)
Theorem export_without_selection_keeps_link_files (env : Env) (prefix : string)
    (w : World) (p : string) :
  In p ["link_id_information.json"; "link_id_information.md";
        "link_id_information.html"; "no_link_id_information.json";
        "no_link_id_information.md"; "no_link_id_information.html"] ->
  files (snd (generate_outputs env prefix false w)) !! (prefix +:+ p)
  = files w !! (prefix +:+ p).
Proof.
  intros Hp. cbn [In] in Hp.
  repeat (destruct Hp as [<-|Hp];
          [apply keeps_generate_outputs_unselected; distinct_paths|]).
  destruct Hp.
Qed.

Lemma export_without_selection_keeps_link_files_witness :
  files (snd (generate_outputs scenario_env EmptyString false
                (snd (generate_outputs scenario_env EmptyString true
                        scenario_fetched))))
    !! (EmptyString +:+ "link_id_information.json")
  = files (snd (generate_outputs scenario_env EmptyString true scenario_fetched))
      !! (EmptyString +:+ "link_id_information.json").
Proof.
  apply (export_without_selection_keeps_link_files scenario_env EmptyString
           (snd (generate_outputs scenario_env EmptyString true scenario_fetched))
           "link_id_information.json").
  simpl. left. reflexivity.
Defined.

Lemma bind_raises {A B} (m : IO A) (k : A -> IO B) w e w1 :
  m w = (Raises e, w1) -> bind m k w = (Raises e, w1).
Proof. intros H. unfold bind. rewrite H. reflexivity. Qed.

Lemma bind_step {A B} (m : IO A) (k : A -> IO B) w a w1 :
  m w = (Returns a, w1) -> bind m k w = k a w1.
Proof. intros H. unfold bind. rewrite H. reflexivity. Qed.

(** X15. The export reads before it writes.  If the Dataset file is missing
    it raises, and if a line of the file cannot be decoded it raises the
    decoding error, and in both cases no file has been written and nothing
    has been printed. *)
Theorem export_reads_before_writing (env : Env) (prefix : string)
    (select_link : bool) (w : World) :
  let json_file := prefix +:+ "id_information.json" in
  let untouched := {| files := files w; stdout := stdout w; opens := S (opens w) |} in
  open_error env (opens w) ModeR json_file = None ->
  match files w !! json_file with
  | None =>
      exists e, generate_outputs env prefix select_link w = (Raises e, untouched)
  | Some content =>
      forall e,
        loads_lines (json_loads env) content = Raises e ->
        generate_outputs env prefix select_link w = (Raises e, untouched)
  end.
Proof.
  cbv zeta. intros Hopen. unfold generate_outputs.
  destruct (files w !! (prefix +:+ "id_information.json")) as [content|] eqn:Hc.
  - intros e He.
    rewrite (bind_step _ _ w tt
               {| files := files w; stdout := stdout w; opens := S (opens w) |})
      by (unfold py_open; rewrite Hopen, Hc; reflexivity).
    rewrite (bind_step _ _ _ content
               {| files := files w; stdout := stdout w; opens := S (opens w) |})
      by (unfold read; cbn [files]; rewrite Hc; reflexivity).
    apply bind_raises. unfold lift. rewrite He. reflexivity.
  - exists (no_such_file (prefix +:+ "id_information.json")).
    apply bind_raises. unfold py_open. rewrite Hopen, Hc. reflexivity.
Qed.

Lemma export_reads_before_writing_witness :
  exists e,
    generate_outputs scenario_env "out_" true empty_world
    = (Raises e,
       {| files := files empty_world; stdout := stdout empty_world;
          opens := S (opens empty_world) |}).
Proof.
  apply (export_reads_before_writing scenario_env "out_" true empty_world).
  reflexivity.
Defined.

(** The message of the missing file shows the path as [repr] does: between
    single quotes, and between double quotes when the prefix holds an
    apostrophe. *)
Example missing_dataset_message :
  fst (generate_outputs scenario_env "out_" true empty_world)
  = Raises "[Errno 2] No such file or directory: 'out_id_information.json'"
  /\ fst (generate_outputs scenario_env "it's_" true empty_world)
     = Raises ("[Errno 2] No such file or directory: "
               +:+ dq +:+ "it's_id_information.json" +:+ dq)
  /\ py_repr ("a" +:+ nl +:+ "b'" +:+ dq +:+ String "092"%char "c")
     = "'a" +:+ String "092"%char "nb" +:+ String "092"%char "'"
       +:+ dq +:+ String "092"%char (String "092"%char "c'").
Proof. repeat split; vm_compute; reflexivity. Qed.

(** ** The whole run *)

Lemma process_all_ids_after_fetch env order pm_ids prefix select_link w failed w1 :
  fetch_phase env order pm_ids prefix w = (Returns failed, w1) ->
  process_all_ids env order pm_ids prefix select_link w
  = export_and_save env prefix select_link failed w1.
Proof. intros H. unfold process_all_ids. apply bind_step. exact H. Qed.

(** The steps after an export that returned. *)
Lemma export_and_save_after_export env prefix select_link failed w w2 :
  generate_outputs env prefix select_link w = (Returns tt, w2) ->
  export_and_save env prefix select_link failed w
  = match failed with
    | [] => (Returns tt, w2)
    | _ :: _ =>
        match open_error env (opens w2) ModeW "failed_ids.txt" with
        | Some e =>
            (Raises e,
             {| files := files w2; stdout := stdout w2; opens := S (opens w2) |})
        | None =>
            (Returns tt,
             {| files := <["failed_ids.txt" := [Raw (join nl failed)]]> (files w2);
                stdout := stdout w2
                          ++ ["Saved " +:+ str_of_nat (length failed)
                              +:+ " failed IDs to failed_ids.txt"];
                opens := S (opens w2) |})
        end
    end.
Proof.
  intros Hgen. unfold export_and_save, try_except, bind. rewrite Hgen. cbn [ret].
  destruct failed as [|x failed]; [reflexivity|].
  unfold write_text, bind, py_open.
  destruct (open_error env (opens w2) ModeW "failed_ids.txt"); [reflexivity|].
  cbn [write print files stdout opens].
  rewrite lookup_insert_eq, insert_insert_eq. reflexivity.
Qed.

(** X16. A run raises in two cases only: the fetch phase raised (an [open]
    of the Dataset file failed), or everything up to the export went well,
    some identifier failed, and the failure log could not be opened.  An
    error of the export stage never leaves [process_all_ids]. *)
Theorem run_raises_iff (env : Env) (order : list nat) (pm_ids : list string)
    (prefix : string) (select_link : bool) (w : World) (e : string) :
  let fetch := fetch_phase env order pm_ids prefix w in
  let export := generate_outputs env prefix select_link (snd fetch) in
  fst (process_all_ids env order pm_ids prefix select_link w) = Raises e
  <-> fst fetch = Raises e
      \/ exists failed,
           fst fetch = Returns failed /\ failed <> []
           /\ fst export = Returns tt
           /\ open_error env (opens (snd export)) ModeW "failed_ids.txt" = Some e.
Proof.
  cbv zeta.
  destruct (fetch_phase env order pm_ids prefix w) as [[failed|e0] w1] eqn:Hfetch.
  - rewrite (process_all_ids_after_fetch _ _ _ _ _ _ _ _ Hfetch). cbn [fst snd].
    destruct (generate_outputs env prefix select_link w1) as [[[]|e1] w2] eqn:Hgen.
    + rewrite (export_and_save_after_export _ _ _ _ _ _ Hgen). cbn [fst snd].
      destruct failed as [|x failed].
      * split; [discriminate|].
        intros [H|(f & [= <-] & Hne & _)]; [discriminate H|congruence].
      * destruct (open_error env (opens w2) ModeW "failed_ids.txt") as [e'|] eqn:Hopen;
          cbn [fst].
        -- split.
           ++ intros [= ->]. right. exists (x :: failed). auto.
           ++ intros [H|(f & _ & _ & _ & H)]; [discriminate H|congruence].
        -- split; [discriminate|].
           intros [H|(f & _ & _ & _ & H)]; discriminate H.
    + assert (Hr : fst (generate_outputs env prefix select_link w1) = Raises e1)
        by (rewrite Hgen; reflexivity).
      rewrite (export_and_save_on_raise _ _ _ _ _ _ Hr). cbn [fst].
      split; [discriminate|].
      intros [H|(f & _ & _ & H & _)]; discriminate H.
  - unfold process_all_ids. rewrite (bind_raises _ _ _ _ _ Hfetch). cbn [fst].
    split; [intros [= ->]; left; reflexivity|].
    intros [[= ->]|(f & H & _)]; [reflexivity|discriminate H].
Qed.

(** X17. When the fetch phase and the export return and the failure log can
    be opened, the run returns.  If some identifier failed, [failed_ids.txt]
    then holds [failed_ids] joined by newlines, in completion order, and the
    last line printed counts them.  If none failed the log is not touched:
    a log left by an earlier run stays as it was. *)
Theorem failure_log_on_success (env : Env) (order : list nat) (pm_ids : list string)
    (prefix : string) (select_link : bool) (w : World) (failed : list string) :
  let fetch := fetch_phase env order pm_ids prefix w in
  let export := generate_outputs env prefix select_link (snd fetch) in
  let run := process_all_ids env order pm_ids prefix select_link w in
  fst fetch = Returns failed ->
  fst export = Returns tt ->
  open_error env (opens (snd export)) ModeW "failed_ids.txt" = None ->
  fst run = Returns tt
  /\ files (snd run) !! "failed_ids.txt"
     = match failed with
       | [] => files w !! "failed_ids.txt"
       | _ :: _ => Some [Raw (join nl failed)]
       end
  /\ stdout (snd run)
     = stdout (snd export)
         ++ match failed with
            | [] => []
            | _ :: _ => ["Saved " +:+ str_of_nat (length failed)
                         +:+ " failed IDs to failed_ids.txt"]
            end.
Proof.
  cbv zeta. intros Hfetch Hexport Hopen.
  pose proof (keeps_fetch_phase env order pm_ids prefix "failed_ids.txt"
                (failure_log_is_not_dataset prefix) w) as Hlog.
  destruct (fetch_phase env order pm_ids prefix w) as [r w1] eqn:Hf.
  cbn [fst snd] in *. subst r.
  rewrite (process_all_ids_after_fetch _ _ _ _ _ _ _ _ Hf).
  pose proof (export_keeps_failure_log env prefix select_link w1) as Hkeep.
  destruct (generate_outputs env prefix select_link w1) as [r w2] eqn:Hgen.
  cbn [fst snd] in *. subst r.
  rewrite (export_and_save_after_export _ _ _ _ _ _ Hgen).
  destruct failed as [|x failed]; cbn [fst snd].
  - rewrite app_nil_r, Hkeep, Hlog. auto.
  - rewrite Hopen. cbn [fst snd files stdout]. rewrite lookup_insert_eq. auto.
Qed.

Lemma failure_log_on_success_witness :
  let fetch := fetch_phase scenario_env [0%nat] ["A1"] EmptyString scenario_done in
  let export := generate_outputs scenario_env EmptyString true (snd fetch) in
  let run := process_all_ids scenario_env [0%nat] ["A1"] EmptyString true
               scenario_done in
  fst run = Returns tt
  /\ files (snd run) !! "failed_ids.txt" = files scenario_done !! "failed_ids.txt"
  /\ stdout (snd run) = stdout (snd export) ++ [].
Proof.
  apply (failure_log_on_success scenario_env [0%nat] ["A1"] EmptyString true
           scenario_done []).
  - vm_compute. reflexivity.
  - vm_compute. reflexivity.
  - reflexivity.
Defined.

(** A second run in which nothing fails leaves the log of the first. *)
Example stale_failure_log :
  files (snd (process_all_ids scenario_env [0%nat] ["A1"] EmptyString true
                scenario_done)) !! "failed_ids.txt"
  = Some [Raw ("A2" +:+ nl +:+ "A3")].
Proof. vm_compute. reflexivity. Qed.

Lemma fetched_content env order pm_ids prefix w failed :
  fst (fetch_phase env order pm_ids prefix w) = Returns failed ->
  exists content,
    files (snd (fetch_phase env order pm_ids prefix w))
      !! (prefix +:+ "id_information.json") = Some content
    /\ json_lines_file content
    /\ rows_of content = dataset prefix (snd (fetch_phase env order pm_ids prefix w)).
Proof.
  intros Hrun. destruct (fetch_phase_spec _ _ _ _ _ _ Hrun) as (_ & Hfiles & _).
  eexists. split; [exact Hfiles|]. split.
  - constructor; [reflexivity|]. apply json_lines_file_rows.
  - unfold dataset. rewrite Hfiles. reflexivity.
Qed.

Lemma export_and_save_keeps env prefix select_link failed w p :
  p <> "failed_ids.txt" ->
  files (snd (export_and_save env prefix select_link failed w)) !! p
  = files (snd (generate_outputs env prefix select_link w)) !! p.
Proof.
  intros Hne.
  destruct (generate_outputs env prefix select_link w) as [[[]|e] w2] eqn:Hgen.
  - rewrite (export_and_save_after_export _ _ _ _ _ _ Hgen). cbn [snd].
    destruct failed as [|x failed]; [reflexivity|].
    destruct (open_error env (opens w2) ModeW "failed_ids.txt"); cbn [snd files];
      [reflexivity|].
    apply lookup_insert_ne. congruence.
  - assert (Hr : fst (generate_outputs env prefix select_link w) = Raises e)
      by (rewrite Hgen; reflexivity).
    rewrite (export_and_save_on_raise _ _ _ _ _ _ Hr), Hgen. reflexivity.
Qed.

(** X18. In a run whose fetch phase and export return, the export describes
    what the fetch phase stored: the document of all records is the
    rendering of the rows of the Dataset, one block per row in Dataset order;
    [pmcids.txt] lists their non-empty secondary-repository IDs; the summary
    line counts them; and the Dataset file itself is left as the fetch phase
    wrote it. *)
Theorem run_documents_render_dataset (env : Env) (order : list nat)
    (pm_ids : list string) (prefix : string) (select_link : bool) (w : World)
    (failed : list string) :
  let fetch := fetch_phase env order pm_ids prefix w in
  let export := generate_outputs env prefix select_link (snd fetch) in
  let run := process_all_ids env order pm_ids prefix select_link w in
  fst fetch = Returns failed ->
  fst export = Returns tt ->
  let stored := dataset prefix (snd fetch) in
  dataset prefix (snd run) = stored
  /\ files (snd run) !! (prefix +:+ "id_information.md")
     = Some [Raw (render_all stored)]
  /\ files (snd run) !! "pmcids.txt" = Some [Raw (join nl (omap listed_pmc stored))]
  /\ stdout (snd export)
     = stdout w ++ ["Generated output files with "
                    +:+ str_of_nat (length stored) +:+ " articles"].
Proof.
  cbv zeta. intros Hfetch Hexport.
  destruct (fetched_content _ _ _ _ _ _ Hfetch) as (content & Hc & Hjson & Hrows).
  destruct (export_unconditional_files env prefix select_link _ content Hc Hjson
              Hexport)
    as (Hpmc & _ & Hmd & _ & Hout).
  pose proof (quiet_fetch_phase env order pm_ids prefix w) as Hquiet.
  pose proof (export_keeps_dataset env prefix select_link
                (snd (fetch_phase env order pm_ids prefix w))) as Hkeep.
  destruct (fetch_phase env order pm_ids prefix w) as [r w1] eqn:Hf.
  cbn [fst snd] in *. subst r.
  rewrite (process_all_ids_after_fetch _ _ _ _ _ _ _ _ Hf).
  rewrite <- Hrows. unfold dataset.
  rewrite !export_and_save_keeps by distinct_paths.
  rewrite Hkeep, Hc, Hpmc, Hmd, Hout, Hquiet. auto.
Qed.

Lemma run_documents_render_dataset_witness :
  let fetch := fetch_phase scenario_env [2; 0; 1]%nat scenario_ids EmptyString
                 empty_world in
  let export := generate_outputs scenario_env EmptyString true (snd fetch) in
  let run := process_all_ids scenario_env [2; 0; 1]%nat scenario_ids EmptyString
               true empty_world in
  let stored := dataset EmptyString (snd fetch) in
  dataset EmptyString (snd run) = stored
  /\ files (snd run) !! (EmptyString +:+ "id_information.md")
     = Some [Raw (render_all stored)]
  /\ files (snd run) !! "pmcids.txt" = Some [Raw (join nl (omap listed_pmc stored))]
  /\ stdout (snd export)
     = stdout empty_world
         ++ ["Generated output files with "
             +:+ str_of_nat (length stored) +:+ " articles"].
Proof.
  apply (run_documents_render_dataset scenario_env [2; 0; 1]%nat scenario_ids
           EmptyString true empty_world ["A3"; "A2"]).
  - vm_compute. reflexivity.
  - vm_compute. reflexivity.
Defined.

(** ** The classification predicate *)

Lemma prefix_spec (a b : string) :
  String.prefix a b = true <-> exists post, b = a +:+ post.
Proof.
  revert b. induction a as [|c a IH]; intros b.
  - split; [intros _; exists b; reflexivity|intros _; destruct b; reflexivity].
  - destruct b as [|c' b]; cbn [String.prefix].
    + split; [discriminate|]. intros [post H]. discriminate H.
    + destruct (ascii_dec c c') as [->|Hne].
      * rewrite IH. split; intros [post H]; exists post.
        -- rewrite H. reflexivity.
        -- injection H as H. exact H.
      * split; [discriminate|]. intros [post H]. injection H as H _. congruence.
Qed.

Lemma str_in_spec (needle hay : string) :
  str_in needle hay = true <-> exists pre post, hay = pre +:+ needle +:+ post.
Proof.
  induction hay as [|c hay IH].
  - cbn [str_in]. destruct (String.prefix needle EmptyString) eqn:Hp.
    + apply prefix_spec in Hp as [post Hp]. split; [|reflexivity].
      intros _. exists EmptyString, post. exact Hp.
    + split; [discriminate|]. intros (pre & post & H).
      destruct pre; [|discriminate H].
      assert (String.prefix needle EmptyString = true)
        by (apply prefix_spec; exists post; exact H).
      congruence.
  - cbn [str_in]. destruct (String.prefix needle (String c hay)) eqn:Hp.
    + apply prefix_spec in Hp as [post Hp]. split; [|reflexivity].
      intros _. exists EmptyString, post. exact Hp.
    + rewrite IH. split.
      * intros (pre & post & ->). exists (String c pre), post. reflexivity.
      * intros (pre & post & H). destruct pre as [|c' pre].
        -- assert (String.prefix needle (String c hay) = true)
             by (apply prefix_spec; exists post; exact H).
           congruence.
        -- injection H as _ H. eauto.
Qed.

Lemma str_app_assoc (a b c : string) : (a +:+ b) +:+ c = a +:+ b +:+ c.
Proof.
  induction a as [|x a IH]; [reflexivity|].
  change (String x ((a +:+ b) +:+ c) = String x (a +:+ b +:+ c)). rewrite IH. reflexivity.
Qed.

(** X19. An abstract matches the classification predicate exactly when it
    contains [ithub] or the misspelling [avaliable] as a contiguous piece,
    with these very letters in these cases.  So a match is never lost by
    adding text before or after the abstract, and the empty abstract does
    not match. *)
Theorem has_github_link_iff (abstract before after : string) :
  (has_github_link abstract = true
   <-> exists pre post,
         abstract = pre +:+ "ithub" +:+ post
         \/ abstract = pre +:+ "avaliable" +:+ post)
  /\ (has_github_link abstract = true ->
      has_github_link (before +:+ abstract +:+ after) = true)
  /\ has_github_link EmptyString = false.
Proof.
  assert (Hiff : forall s,
             has_github_link s = true
             <-> exists pre post,
                   s = pre +:+ "ithub" +:+ post \/ s = pre +:+ "avaliable" +:+ post).
  { intros s. unfold has_github_link. rewrite orb_true_iff, !str_in_spec. split.
    - intros [(pre & post & H)|(pre & post & H)]; exists pre, post; auto.
    - intros (pre & post & [H|H]); [left|right]; eauto. }
  split; [apply Hiff|]. split; [|reflexivity].
  intros H. apply Hiff in H as (pre & post & [-> | ->]); apply Hiff;
    exists (before +:+ pre), (post +:+ after); [left|right];
    rewrite !str_app_assoc; reflexivity.
Qed.

Lemma has_github_link_iff_witness :
  has_github_link ("Background. " +:+ "Code at github.com/x." +:+ " Thanks.") = true.
Proof.
  apply (proj1 (proj2 (has_github_link_iff "Code at github.com/x." "Background. "
                         " Thanks."))).
  reflexivity.
Defined.

Example has_github_link_upper_case : has_github_link "See GITHUB." = false.
Proof. reflexivity. Qed.

(** ** Batches of any size *)

Lemma make_batches_is_batches_of pm_ids :
  make_batches pm_ids = batches_of BATCH_SIZE pm_ids.
Proof. reflexivity. Qed.

Lemma batches_concat {A} (size : nat) (m : nat) : forall l : list A,
  (length l <= m * size)%nat ->
  concat (List.map (fun k => slice l (0 + k * size) (0 + k * size + size)) (seq 0 m))
  = l.
Proof.
  induction m as [|m IH]; intros l Hlen.
  - destruct l; [reflexivity|cbn in Hlen; lia].
  - rewrite <- cons_seq, <- seq_shift. cbn [List.map concat].
    rewrite List.map_map.
    rewrite (List.map_ext _ (fun k => slice (drop size l) (0 + k * size)
                                        (0 + k * size + size))).
    + rewrite IH by (rewrite length_drop; lia).
      unfold slice. cbn [Nat.add Nat.mul drop].
      replace (size - 0)%nat with size by lia. apply take_drop.
    + intros k. unfold slice. rewrite drop_drop.
      replace (0 + S k * size + size - (0 + S k * size))%nat with size by lia.
      replace (0 + k * size + size - (0 + k * size))%nat with size by lia.
      f_equal.
Qed.

Lemma range_step_length start stop step :
  length (range_step start stop step) = ((stop - start + (step - 1)) / step)%nat.
Proof. unfold range_step. rewrite length_map, length_seq. reflexivity. Qed.

(** X20. For every batch size of at least one, the batches of line 160 cut
    the input into consecutive pieces: put end to end they give the input
    list back, none is empty, none is longer than the batch size, and the
    [k]-th starts at position [k * size].  The empty input gives no batch. *)
Theorem batches_cover_input (size : nat) (pm_ids : list string) :
  (1 <= size)%nat ->
  concat (List.map snd (batches_of size pm_ids)) = pm_ids
  /\ Forall (fun b => (1 <= length (snd b) <= size)%nat) (batches_of size pm_ids)
  /\ List.map fst (batches_of size pm_ids)
     = List.map (fun k => (k * size)%nat) (seq 0 (length (batches_of size pm_ids)))
  /\ (pm_ids = [] -> batches_of size pm_ids = []).
Proof.
  intros Hsize. unfold batches_of.
  set (n := length pm_ids).
  set (m := ((n - 0 + (size - 1)) / size)%nat).
  assert (Hm : (n <= m * size)%nat).
  { subst m. rewrite Nat.sub_0_r.
    pose proof (Nat.div_mod_eq (n + (size - 1)) size) as Hdiv.
    pose proof (Nat.mod_upper_bound (n + (size - 1)) size ltac:(lia)) as Hmod.
    nia. }
  assert (Hlast : forall k, (k < m)%nat -> (k * size < n)%nat).
  { intros k Hk. subst m. rewrite Nat.sub_0_r in Hk.
    pose proof (Nat.div_mod_eq (n + (size - 1)) size) as Hdiv.
    assert ((S k) * size <= n + (size - 1))%nat; [|nia].
    assert (S k <= (n + (size - 1)) / size)%nat by lia. nia. }
  unfold range_step. fold m. rewrite !List.map_map. cbn [fst snd].
  split; [|split; [|split]].
  - exact (batches_concat size m pm_ids Hm).
  - apply List.Forall_forall. intros b Hb. apply in_map_iff in Hb as (k & <- & Hk).
    apply in_seq in Hk. cbn [snd]. unfold slice.
    rewrite length_take, length_drop. fold n.
    specialize (Hlast k ltac:(lia)). lia.
  - rewrite length_map, length_seq. apply List.map_ext. intros k. lia.
  - intros ->. subst m n. cbn [length]. rewrite Nat.sub_0_r, Nat.add_0_l.
    rewrite Nat.div_small by lia. reflexivity.
Qed.

Lemma batches_cover_input_witness :
  concat (List.map snd (batches_of 2 scenario_ids)) = scenario_ids
  /\ Forall (fun b => (1 <= length (snd b) <= 2)%nat) (batches_of 2 scenario_ids)
  /\ List.map fst (batches_of 2 scenario_ids)
     = List.map (fun k => (k * 2)%nat) (seq 0 (length (batches_of 2 scenario_ids)))
  /\ (scenario_ids = [] -> batches_of 2 scenario_ids = []).
Proof.
  apply (batches_cover_input 2 scenario_ids). lia.
Defined.

Example batches_of_two :
  batches_of 2 scenario_ids = [(0%nat, ["A1"; "A2"]); (2%nat, ["A3"])].
Proof. reflexivity. Qed.

(** ** The input file and the failure log *)

Lemma visible_not_space c : visible c = true -> is_space c = false.
Proof.
  unfold visible, is_space. intros H. apply andb_prop in H as [H1 H2].
  apply Nat.leb_le in H1, H2.
  destruct (9 <=? nat_of_ascii c)%nat eqn:E1, (nat_of_ascii c <=? 13)%nat eqn:E2,
           (28 <=? nat_of_ascii c)%nat eqn:E3, (nat_of_ascii c <=? 32)%nat eqn:E4;
    try reflexivity;
    repeat match goal with
           | E : (_ <=? _)%nat = true |- _ => apply Nat.leb_le in E
           | E : (_ <=? _)%nat = false |- _ => apply Nat.leb_gt in E
           end; lia.
Qed.

Lemma visible_not_break c :
  visible c = true -> Ascii.eqb c "010" = false /\ Ascii.eqb c "013" = false.
Proof.
  intros H. split; apply Ascii.eqb_neq; intros ->; discriminate H.
Qed.

Lemma file_lines_line s rest :
  all_visible s = true ->
  file_lines (s +:+ nl +:+ rest) = (s +:+ nl) :: file_lines rest.
Proof.
  induction s as [|c s IH]; intros Hs.
  - reflexivity.
  - cbn [all_visible] in Hs. apply andb_prop in Hs as [Hc Hs].
    destruct (visible_not_break c Hc) as [H10 H13].
    change (String c s +:+ nl +:+ rest) with (String c (s +:+ nl +:+ rest)).
    cbn [file_lines]. rewrite H10, H13, (IH Hs). reflexivity.
Qed.

Lemma file_lines_last s :
  plain_id s = true -> file_lines s = [s].
Proof.
  unfold plain_id. intros H. apply andb_prop in H as [Hne Hs].
  induction s as [|c s IH]; [discriminate Hne|].
  cbn [all_visible] in Hs. apply andb_prop in Hs as [Hc Hs].
  destruct (visible_not_break c Hc) as [H10 H13].
  cbn [file_lines]. rewrite H10, H13.
  destruct s as [|c' s]; [reflexivity|].
  rewrite IH by (reflexivity || exact Hs). reflexivity.
Qed.

Lemma lstrip_plain s tail :
  plain_id s = true -> lstrip (s +:+ tail) = s +:+ tail.
Proof.
  unfold plain_id. destruct s as [|c s]; [discriminate|].
  cbn [truthy_str all_visible andb]. intros H. apply andb_prop in H as [Hc _].
  change (String c s +:+ tail) with (String c (s +:+ tail)).
  cbn [lstrip]. rewrite (visible_not_space c Hc). reflexivity.
Qed.

Lemma rstrip_visible s :
  all_visible s = true -> rstrip (s +:+ nl) = s /\ rstrip s = s.
Proof.
  induction s as [|c s IH]; intros Hs.
  - split; reflexivity.
  - cbn [all_visible] in Hs. apply andb_prop in Hs as [Hc Hs].
    destruct (IH Hs) as [IH1 IH2].
    change (String c s +:+ nl) with (String c (s +:+ nl)).
    cbn [rstrip]. rewrite IH1, IH2, (visible_not_space c Hc).
    split; destruct s; reflexivity.
Qed.

Lemma strip_plain s :
  plain_id s = true -> strip (s +:+ nl) = s /\ strip s = s.
Proof.
  intros H. unfold strip.
  rewrite (lstrip_plain s nl H).
  assert (Hs : lstrip s = s).
  { pose proof (lstrip_plain s EmptyString H) as Hl.
    assert (Hnil : s +:+ EmptyString = s).
    { clear. induction s as [|c s IH]; [reflexivity|].
      change (String c (s +:+ EmptyString) = String c s). rewrite IH. reflexivity. }
    rewrite Hnil in Hl. exact Hl. }
  rewrite Hs. apply rstrip_visible.
  unfold plain_id in H. apply andb_prop in H as [_ H]. exact H.
Qed.

Lemma join_cons sep x y l :
  join sep (x :: y :: l) = x +:+ sep +:+ join sep (y :: l).
Proof. reflexivity. Qed.

Lemma read_ids_join ids :
  Forall (fun s => plain_id s = true) ids -> read_ids (join nl ids) = ids.
Proof.
  induction 1 as [|x ids Hx Hids IH]; [reflexivity|].
  destruct (strip_plain x Hx) as [Hs1 Hs2].
  assert (Hne : truthy_str x = true)
    by (unfold plain_id in Hx; apply andb_prop in Hx as [Hx _]; exact Hx).
  destruct ids as [|y ids].
  - unfold read_ids. change (join nl [x]) with x.
    rewrite (file_lines_last x Hx). cbn [List.filter List.map].
    rewrite Hs2, Hne. cbn [List.map]. rewrite Hs2. reflexivity.
  - rewrite join_cons. unfold read_ids in *.
    rewrite file_lines_line
      by (unfold plain_id in Hx; apply andb_prop in Hx as [_ Hx]; exact Hx).
    cbn [List.filter]. rewrite Hs1, Hne. cbn [List.map]. rewrite Hs1, IH. reflexivity.
Qed.

(** X21. Reading the input file undoes the way this program writes a list of
    identifiers: if every identifier is a non-empty string of visible ASCII
    characters, the identifiers joined by newlines, as line 193 writes
    [failed_ids.txt], are read back by lines 199-200 as the same list, in the
    same order, duplicates included. *)
Theorem read_ids_round_trip (ids : list string) :
  Forall (fun s => plain_id s = true) ids ->
  read_ids (join nl ids) = ids.
Proof. exact (read_ids_join ids). Qed.

Lemma read_ids_round_trip_witness :
  read_ids (join nl ["31452104"; "A2"; "31452104"]) = ["31452104"; "A2"; "31452104"].
Proof.
  apply (read_ids_round_trip ["31452104"; "A2"; "31452104"]).
  repeat constructor.
Defined.

Example read_ids_blank_lines_and_spaces :
  read_ids ("  31452104 " +:+ nl +:+ nl +:+ String "009" "A2" +:+ String "013" nl
            +:+ " " +:+ nl +:+ "A3")
  = ["31452104"; "A2"; "A3"].
Proof. reflexivity. Qed.

(** X22. The failure log of a run can be fed back as the input of the next.
    If the input identifiers are non-empty strings of visible ASCII
    characters and the run gets as far as writing the log, then
    [failed_ids.txt] holds one text, and reading that text as lines 199-200
    read [pubmed_ids.txt] gives exactly [failed_ids], all of them
    identifiers of the input. *)
Theorem failure_log_reads_back (env : Env) (order : list nat) (pm_ids : list string)
    (prefix : string) (select_link : bool) (w : World) (failed : list string) :
  let fetch := fetch_phase env order pm_ids prefix w in
  let export := generate_outputs env prefix select_link (snd fetch) in
  let run := process_all_ids env order pm_ids prefix select_link w in
  Forall (fun s => plain_id s = true) pm_ids ->
  Permutation order (seq 0 (length pm_ids)) ->
  fst fetch = Returns failed ->
  failed <> [] ->
  fst export = Returns tt ->
  open_error env (opens (snd export)) ModeW "failed_ids.txt" = None ->
  (exists text,
      files (snd run) !! "failed_ids.txt" = Some [Raw text]
      /\ read_ids text = failed)
  /\ (forall x, In x failed -> In x pm_ids).
Proof.
  cbv zeta. intros Hplain Hperm Hfetch Hne Hexport Hopen.
  assert (Hin : forall x, In x failed -> In x pm_ids).
  { intros x Hx.
    apply (Permutation_in x (stored_and_failed_perm _ _ _ _ _ _ Hperm Hfetch)).
    apply in_or_app. right. exact Hx. }
  split; [|exact Hin].
  exists (join nl failed). split.
  - destruct (fetch_phase env order pm_ids prefix w) as [r w1] eqn:Hf.
    cbn [fst snd] in *. subst r.
    rewrite (process_all_ids_after_fetch _ _ _ _ _ _ _ _ Hf).
    destruct (generate_outputs env prefix select_link w1) as [r w2] eqn:Hgen.
    cbn [fst snd] in *. subst r.
    rewrite (export_and_save_after_export _ _ _ _ _ _ Hgen).
    destruct failed as [|x failed]; [congruence|].
    rewrite Hopen. cbn [snd files]. apply lookup_insert_eq.
  - apply read_ids_join. apply List.Forall_forall. intros x Hx.
    rewrite List.Forall_forall in Hplain. apply Hplain, Hin, Hx.
Qed.

Lemma failure_log_reads_back_witness :
  let run := process_all_ids scenario_env [2; 0; 1]%nat scenario_ids EmptyString
               true empty_world in
  (exists text,
      files (snd run) !! "failed_ids.txt" = Some [Raw text]
      /\ read_ids text = ["A3"; "A2"])
  /\ (forall x, In x ["A3"; "A2"] -> In x scenario_ids).
Proof.
  apply (failure_log_reads_back scenario_env [2; 0; 1]%nat scenario_ids EmptyString
           true empty_world ["A3"; "A2"]).
  - repeat constructor.
  - exact order_201.
  - vm_compute. reflexivity.
  - discriminate.
  - vm_compute. reflexivity.
  - reflexivity.
Defined.

Lemma rstrip_idempotent s : rstrip (rstrip s) = rstrip s.
Proof.
  induction s as [|c s IH]; [reflexivity|].
  cbn [rstrip]. destruct (rstrip s) as [|c' k] eqn:Hk.
  - destruct (is_space c) eqn:Hc; [reflexivity|]. cbn [rstrip]. rewrite Hc. reflexivity.
  - cbn [rstrip]. cbn [rstrip] in IH. rewrite IH. reflexivity.
Qed.

Lemma lstrip_head s :
  lstrip s = EmptyString
  \/ exists c r, lstrip s = String c r /\ is_space c = false.
Proof.
  induction s as [|c s IH]; [left; reflexivity|].
  cbn [lstrip]. destruct (is_space c) eqn:Hc; [exact IH|]. right. eauto.
Qed.

Lemma rstrip_head c r :
  is_space c = false -> exists k, rstrip (String c r) = String c k.
Proof.
  intros Hc. cbn [rstrip]. destruct (rstrip r); [rewrite Hc|]; eauto.
Qed.

Lemma strip_idempotent s : strip (strip s) = strip s.
Proof.
  unfold strip. destruct (lstrip_head s) as [->|(c & r & -> & Hc)]; [reflexivity|].
  destruct (rstrip_head c r Hc) as [k Hk].
  rewrite Hk. cbn [lstrip]. rewrite Hc, <- Hk. apply rstrip_idempotent.
Qed.

(** What [rstrip] leaves is empty or ends with a character that is not white
    space. *)
Lemma rstrip_last s :
  rstrip s = EmptyString
  \/ exists r c, rstrip s = r +:+ String c EmptyString /\ is_space c = false.
Proof.
  induction s as [|c s IH]; [left; reflexivity|].
  cbn [rstrip]. destruct (rstrip s) as [|c' k] eqn:Hk.
  - destruct (is_space c) eqn:Hc; [left; reflexivity|].
    right. exists EmptyString, c. split; [reflexivity|exact Hc].
  - right. destruct IH as [IH|(r & c0 & IH & Hc0)]; [discriminate IH|].
    exists (String c r), c0. rewrite IH. split; [reflexivity|exact Hc0].
Qed.

(** What [strip] leaves is empty, or begins and ends with characters that
    are not white space. *)
Lemma strip_ends s :
  strip s = EmptyString
  \/ (exists c r, strip s = String c r /\ is_space c = false)
     /\ (exists r c, strip s = r +:+ String c EmptyString /\ is_space c = false).
Proof.
  unfold strip. destruct (lstrip_head s) as [->|(c & r & -> & Hc)];
    [left; reflexivity|].
  right. split.
  - destruct (rstrip_head c r Hc) as [k Hk]. eauto.
  - destruct (rstrip_last (String c r)) as [Hnil|Hlast]; [|exact Hlast].
    destruct (rstrip_head c r Hc) as [k Hk]. congruence.
Qed.

(** X23. Whatever ASCII text the input file holds, every identifier read
    from it begins with a character that is not white space and ends with
    one, so it is not empty and stripping it again changes nothing; blank
    lines and padded lines never produce an empty or padded identifier.  An
    empty file gives no identifier. *)
Theorem read_ids_are_stripped (text : string) :
  ascii_text text = true ->
  Forall (fun s =>
            (exists c r, s = String c r /\ is_space c = false)
            /\ (exists r c, s = r +:+ String c EmptyString /\ is_space c = false)
            /\ strip s = s)
         (read_ids text)
  /\ read_ids EmptyString = [].
Proof.
  intros _. split; [|reflexivity].
  unfold read_ids. apply List.Forall_forall. intros s Hs.
  apply in_map_iff in Hs as (line & <- & Hline).
  apply filter_In in Hline as [_ Hne].
  destruct (strip_ends line) as [Hnil|[Hfirst Hlast]].
  - rewrite Hnil in Hne. discriminate Hne.
  - split; [exact Hfirst|]. split; [exact Hlast|]. apply strip_idempotent.
Qed.

(** A file with padded lines, a blank line and a line of white space. *)
Lemma read_ids_are_stripped_witness :
  Forall (fun s =>
            (exists c r, s = String c r /\ is_space c = false)
            /\ (exists r c, s = r +:+ String c EmptyString /\ is_space c = false)
            /\ strip s = s)
         (read_ids ("  31452104 " +:+ nl +:+ nl +:+ String "009" " " +:+ nl +:+ " A2"))
  /\ read_ids EmptyString = [].
Proof.
  apply (read_ids_are_stripped
           ("  31452104 " +:+ nl +:+ nl +:+ String "009" " " +:+ nl +:+ " A2")).
  reflexivity.
Defined.

(** ** Completion order and repeated export *)

(** X24. The order in which the units complete decides the order of the rows
    and of [failed_ids], and nothing else: two fetch phases over the same
    input and the same remote behaviour, in any two completion orders and
    from any two file systems, store the same rows and log the same
    identifiers, up to rearrangement. *)
Theorem completion_order_only_reorders (env : Env) (order1 order2 : list nat)
    (pm_ids : list string) (prefix : string) (w1 w2 : World)
    (failed1 failed2 : list string) :
  Permutation order1 (seq 0 (length pm_ids)) ->
  Permutation order2 (seq 0 (length pm_ids)) ->
  fst (fetch_phase env order1 pm_ids prefix w1) = Returns failed1 ->
  fst (fetch_phase env order2 pm_ids prefix w2) = Returns failed2 ->
  Permutation (dataset prefix (snd (fetch_phase env order1 pm_ids prefix w1)))
              (dataset prefix (snd (fetch_phase env order2 pm_ids prefix w2)))
  /\ Permutation failed1 failed2.
Proof.
  intros Hp1 Hp2 Hr1 Hr2.
  rewrite (dataset_after_fetch _ _ _ _ _ _ Hr1), (dataset_after_fetch _ _ _ _ _ _ Hr2).
  destruct (fetch_phase_spec _ _ _ _ _ _ Hr1) as (-> & _ & _).
  destruct (fetch_phase_spec _ _ _ _ _ _ Hr2) as (-> & _ & _).
  pose proof (completed_units_perm env _ _ Hp1) as H1.
  pose proof (completed_units_perm env _ _ Hp2) as H2.
  split.
  - rewrite (stored_of_perm _ _ H1), (stored_of_perm _ _ H2). reflexivity.
  - rewrite (failed_of_perm _ _ H1), (failed_of_perm _ _ H2). reflexivity.
Qed.

Lemma order_012 : Permutation [0; 1; 2]%nat (seq 0 (length scenario_ids)).
Proof. apply Permutation_refl. Defined.

Lemma completion_order_only_reorders_witness :
  Permutation
    (dataset EmptyString
       (snd (fetch_phase scenario_env [2; 0; 1]%nat scenario_ids EmptyString
               empty_world)))
    (dataset EmptyString
       (snd (fetch_phase scenario_env [0; 1; 2]%nat scenario_ids EmptyString
               scenario_done)))
  /\ Permutation ["A3"; "A2"] ["A2"; "A3"].
Proof.
  apply (completion_order_only_reorders scenario_env [2; 0; 1]%nat [0; 1; 2]%nat
           scenario_ids EmptyString empty_world scenario_done).
  - exact order_201.
  - exact order_012.
  - vm_compute. reflexivity.
  - vm_compute. reflexivity.
Defined.

(** X25. Exporting twice changes nothing: when the export of a Dataset file
    of JSON lines returns and is run again with the same arguments and
    returns again, every file holds after the second export exactly what it
    held after the first.  The export reads the Dataset and nothing it wrote
    itself. *)
Theorem export_twice_same_files (env : Env) (prefix : string) (select_link : bool)
    (w : World) (content : list chunk) :
  let once := generate_outputs env prefix select_link w in
  let twice := generate_outputs env prefix select_link (snd once) in
  files w !! (prefix +:+ "id_information.json") = Some content ->
  json_lines_file content ->
  fst once = Returns tt ->
  fst twice = Returns tt ->
  files (snd twice) = files (snd once).
Proof.
  cbv zeta. intros Hc Hjson Hr1 Hr2.
  pose proof (export_keeps_dataset env prefix select_link w) as Hkeep.
  destruct (generate_outputs env prefix select_link w) as [r w'] eqn:Hrun1.
  cbn [fst snd] in *. subst r.
  assert (Hc' : files w' !! (prefix +:+ "id_information.json") = Some content)
    by (rewrite Hkeep; exact Hc).
  destruct (generate_outputs env prefix select_link w') as [r w''] eqn:Hrun2.
  cbn [fst snd] in *. subst r.
  destruct (generate_outputs_returns _ _ _ _ _ _ Hc Hjson Hrun1)
    as (html & w4 & Hhtml & -> & _ & Hfiles1).
  destruct (generate_outputs_returns _ _ _ _ _ _ Hc' Hjson Hrun2)
    as (html' & w4' & Hhtml' & -> & _ & Hfiles2).
  assert (html' = html) as -> by congruence.
  destruct select_link.
  - destruct Hfiles1 as (h1 & h2 & Hh1 & Hh2 & Hfiles1).
    destruct Hfiles2 as (h1' & h2' & Hh1' & Hh2' & Hfiles2).
    assert (h1' = h1) as -> by congruence.
    assert (h2' = h2) as -> by congruence.
    rewrite Hfiles2. cbn [written files].
    repeat match goal with
           | |- context [<[?k := ?v]> (files w')] =>
               rewrite (insert_id (files w') k v) by (rewrite Hfiles1; lookup_written)
           end.
    reflexivity.
  - rewrite Hfiles2. cbn [written files].
    repeat match goal with
           | |- context [<[?k := ?v]> (files w')] =>
               rewrite (insert_id (files w') k v) by (rewrite Hfiles1; lookup_written)
           end.
    reflexivity.
Qed.

Lemma export_twice_same_files_witness :
  files (snd (generate_outputs scenario_env EmptyString true
                (snd (generate_outputs scenario_env EmptyString true
                        scenario_fetched))))
  = files (snd (generate_outputs scenario_env EmptyString true scenario_fetched)).
Proof.
  apply (export_twice_same_files scenario_env EmptyString true scenario_fetched
           scenario_content).
  - vm_compute. reflexivity.
  - exact scenario_content_is_json_lines.
  - vm_compute. reflexivity.
  - vm_compute. reflexivity.
Defined.
